(** * Download-completion detection of MFASecurefileDownloader.py

    A shallow embedding of [get_downloaded_filename]
    (src/MFASecurefileDownloader.py, lines 50-157) and the properties the
    specification states about it.

    Conventions of the model.
    - Time is an integer number of milliseconds ([Z]): the source's
      [DOWNLOAD_CHECK_INTERVAL = 1] is 1000, [DOWNLOAD_STABILITY_TIME = 3]
      is 3000, [time.sleep(0.1)] is a sleep of 100.
    - The watched directory is a [World]: what the file system would answer
      at each instant.  The detector only reads it while it polls; the
      downloading process is what changes it.
    - One loop iteration reads the directory and the clock at one instant.
      Time passes between iterations: a sleep of [d] begun at an instant
      advances the clock by [d] plus the [delay] of that instant, which the
      world chooses: [time.sleep] sleeps at least [d], and the calls of the
      iteration take time of their own.
    - A Python set is iterated in an order the program does not control; the
      iteration order of [new_files] is the order of the directory listing,
      which the world chooses. *)

From Stdlib Require Import ZArith Lia Ascii String.
From stdpp Require Import gmap strings list.

Open Scope Z_scope.

(** ** The pieces of Python's [str] and [os.path] the function calls *)

Module PyStr.

(** [s.endswith(suffix)] *)
Definition endswith (s suffix : string) : bool :=
  let n := String.length s in
  let m := String.length suffix in
  (m <=? n)%nat && String.eqb (substring (n - m) m s) suffix.

(** [s.rfind(c)] for a one-character [c]: the highest index, or -1. *)
Fixpoint rfind_from (c : ascii) (s : string) (i found : Z) : Z :=
  match s with
  | EmptyString => found
  | String a s' => rfind_from c s' (i + 1) (if Ascii.eqb a c then i else found)
  end.

Definition rfind (s : string) (c : ascii) : Z := rfind_from c s 0 (-1).

Fixpoint all_dots (s : string) : bool :=
  match s with
  | EmptyString => true
  | String a s' => Ascii.eqb a "." && all_dots s'
  end.

(** [os.path.splitext(p)] (posixpath): the extension starts at the last
    dot of the last path component, unless only dots precede it there. *)
Definition splitext (p : string) : string * string :=
  let sepIndex := rfind p "/" in
  let dotIndex := rfind p "." in
  if (sepIndex <? dotIndex)
     && negb (all_dots (substring (Z.to_nat (sepIndex + 1))
                                  (Z.to_nat (dotIndex - sepIndex - 1)) p))
  then (substring 0 (Z.to_nat dotIndex) p,
        substring (Z.to_nat dotIndex) (String.length p - Z.to_nat dotIndex) p)
  else (p, EmptyString).

End PyStr.

Import PyStr.

(** ** The file system as the detector sees it *)

Definition Time := Z.

(** What the directory answers at one instant, and by how much (in ms) an
    iteration begun at that instant outlasts the sleep it asks for. *)
Record Snapshot := {
  listing : option (list string);    (* os.listdir; None: FileNotFoundError *)
  path_exists : string -> bool;      (* os.path.exists(join(dir, name)) *)
  path_size : string -> option N;    (* os.path.getsize; None: OSError *)
  remove_fails : string -> bool;     (* would os.remove raise OSError? *)
  delay : N                          (* overshoot of time.sleep, time of the calls *)
}.

Definition World := Time -> Snapshot.

(** A successful [os.remove(name)]: the entry is gone afterwards. *)
Definition unlink (name : string) (d : Snapshot) : Snapshot :=
  {| listing := filter (λ f, f ≠ name) <$> listing d;
     path_exists := λ f, if decide (f = name) then false else path_exists d f;
     path_size := λ f, if decide (f = name) then None else path_size d f;
     remove_fails := remove_fails d;
     delay := delay d |}.

(** ** Module-level configuration (lines 38-40) *)

Record Globals := {
  DOWNLOAD_CHECK_INTERVAL : Z;
  DOWNLOAD_STABILITY_TIME : Z
}.

Definition source_globals : Globals :=
  {| DOWNLOAD_CHECK_INTERVAL := 1000; DOWNLOAD_STABILITY_TIME := 3000 |}.

Definition MAX_WAIT_TIME : Z := 300000.

(** ** Results, exceptions and the observable history of a call *)

Inductive exn := FileNotFoundError | ValueError.

(** [Spin]: the iteration bound of the model ran out (see [iterations]). *)
Inductive Outcome :=
| Return (r : option string)
| Raise (e : exn)
| Spin.

(** Which path through the loop body one poll took. *)
Inductive Branch :=
| NoNewFiles                                   (* lines 76-79 *)
| Downloading (active_download_fname : string) (* lines 95-100 *)
| NothingToCheck                               (* line 103 false *)
| Vanished (f : string)                        (* lines 129-132 *)
| Unreadable (f : string)                      (* lines 108-111 *)
| SizeChanged (f : string) (current_size : Z)  (* lines 124-128 *)
| StableStart (f : string) (current_size : Z)  (* lines 115-116 *)
| StableWait (f : string) (current_size : Z).  (* lines 120-122 *)

Record Poll := { poll_time : Time; poll_branch : Branch }.

Inductive Event :=
| Listed (t : Time) (ok : bool)                  (* an os.listdir call *)
| Removed (t : Time) (f : string) (ok : bool).   (* an os.remove call *)

(** The local variables of the function, with the history kept as ghost
    state (newest entry first). *)
Record Locals := {
  clock : Time;
  last_size : Z;
  stable_time_start : option Time;
  polls : list Poll;
  effects : list Event
}.

Record Result := {
  outcome : Outcome;
  finished_at : Time;
  history : list Poll;
  trace : list Event
}.

Inductive Step :=
| Continue (l : Locals)
| Exit (o : Outcome) (l : Locals).

Definition finish (o : Outcome) (l : Locals) : Result :=
  {| outcome := o; finished_at := clock l; history := polls l; trace := effects l |}.

Definition log (e : Event) (l : Locals) : Locals :=
  {| clock := clock l; last_size := last_size l;
     stable_time_start := stable_time_start l;
     polls := polls l; effects := e :: effects l |}.

Definition note (b : Branch) (l : Locals) : Locals :=
  {| clock := clock l; last_size := last_size l;
     stable_time_start := stable_time_start l;
     polls := {| poll_time := clock l; poll_branch := b |} :: polls l;
     effects := effects l |}.

Definition assign (size : Z) (since : option Time) (l : Locals) : Locals :=
  {| clock := clock l; last_size := size; stable_time_start := since;
     polls := polls l; effects := effects l |}.

(** [time.sleep(d)]: ValueError for a negative length; otherwise the next
    iteration begins [d + late] after this one began. *)
Definition sleep (d : Z) (late : N) (l : Locals) : Step :=
  if d <? 0 then Exit (Raise ValueError) l
  else Continue {| clock := clock l + d + Z.of_N late; last_size := last_size l;
                   stable_time_start := stable_time_start l;
                   polls := polls l; effects := effects l |}.

(** [current_files - initial_files], in iteration order. *)
Definition set_minus (names : list string) (initial_files : gset string) : list string :=
  filter (λ f, f ∉ initial_files) (remove_dups names).

(** The [for fname in new_files] loop of lines 82-93: the triple
    (downloading, potential_filename, active_download_fname). *)
Fixpoint scan (new_files : list string) (potential_filename : option string)
  : bool * option string * option string :=
  match new_files with
  | [] => (false, potential_filename, None)
  | fname :: rest =>
      if endswith fname ".crdownload"
      then (true, Some (fst (splitext fname)), Some fname)
      else if negb (endswith fname ".tmp")
           then scan rest (Some fname)
           else scan rest potential_filename
  end.

(** Python truthiness of [potential_filename]: neither None nor empty. *)
Definition truthy (name : option string) : option string :=
  match name with
  | Some f => if decide (f = EmptyString) then None else Some f
  | None => None
  end.

Section Detector.

Variable g : Globals.
Variable w : World.
Variable start_time : Time.
Variable timeout : Z.
Variable initial_files : gset string.

(** One iteration of the [while] loop, lines 69-135. *)
Definition loop_body (l : Locals) : Step :=
  let t := clock l in
  match listing (w t) with
  | None => Exit (Return None) (log (Listed t false) l)
  | Some names =>
    let l := log (Listed t true) l in
    let new_files := set_minus names initial_files in
    match new_files with
    | [] => sleep (DOWNLOAD_CHECK_INTERVAL g) (delay (w t)) (note NoNewFiles l)
    | _ :: _ =>
      let '(downloading, potential_filename, active_download_fname) :=
        scan new_files None in
      if downloading then
        sleep (DOWNLOAD_CHECK_INTERVAL g) (delay (w t))
              (note (Downloading (default EmptyString active_download_fname))
                    (assign (-1) None l))
      else
        match truthy potential_filename with
        | None => sleep (DOWNLOAD_CHECK_INTERVAL g) (delay (w t)) (note NothingToCheck l)
        | Some f =>
          if path_exists (w t) f then
            match path_size (w t) f with
            | None => sleep 100 (delay (w t)) (note (Unreadable f) l)
            | Some n =>
              let current_size := Z.of_N n in
              if (current_size =? last_size l) && (0 <? current_size) then
                match stable_time_start l with
                | None =>
                    sleep (DOWNLOAD_CHECK_INTERVAL g) (delay (w t))
                          (note (StableStart f current_size)
                                (assign (last_size l) (Some t) l))
                | Some since =>
                    if DOWNLOAD_STABILITY_TIME g <=? t - since
                    then Exit (Return (Some f)) l
                    else sleep (DOWNLOAD_CHECK_INTERVAL g) (delay (w t))
                               (note (StableWait f current_size) l)
                end
              else
                sleep (DOWNLOAD_CHECK_INTERVAL g) (delay (w t))
                      (note (SizeChanged f current_size)
                            (assign current_size None l))
            end
          else
            sleep (DOWNLOAD_CHECK_INTERVAL g) (delay (w t))
                  (note (Vanished f) (assign (-1) None l))
        end
    end
  end.

(** The [for fname in new_files_on_timeout] loop, lines 142-152.  An
    OSError of [os.path.getsize] leaves the loop through the handler of
    line 154; one of [os.remove] is caught at line 151. *)
Fixpoint cleanup_loop (t : Time) (new_files_on_timeout : list string)
         (d : Snapshot) (es : list Event) : list Event :=
  match new_files_on_timeout with
  | [] => es
  | fname :: rest =>
    if endswith fname ".crdownload" then
      let final := fst (splitext fname) in
      let keep :=
        if path_exists d final then
          match path_size d final with
          | None => None
          | Some n => Some (0 <? Z.of_N n)
          end
        else Some false in
      match keep with
      | None => es
      | Some true => cleanup_loop t rest d es
      | Some false =>
        if remove_fails d fname
        then cleanup_loop t rest d (Removed t fname false :: es)
        else cleanup_loop t rest (unlink fname d) (Removed t fname true :: es)
      end
    else cleanup_loop t rest d es
  end.

(** Lines 137-157: what happens once the loop condition fails. *)
Definition timed_out (l : Locals) : Result :=
  let t := clock l in
  match listing (w t) with
  | None => finish (Return None) (log (Listed t false) l)
  | Some names =>
    {| outcome := Return None;
       finished_at := t;
       history := polls l;
       trace := cleanup_loop t (set_minus names initial_files) (w t)
                             (Listed t true :: effects l) |}
  end.

(** The [while time.time() - start_time < timeout] loop. *)
Fixpoint wait_loop (fuel : nat) (l : Locals) : Result :=
  match fuel with
  | O => finish Spin l
  | S fuel' =>
    if clock l - start_time <? timeout then
      match loop_body l with
      | Continue l' => wait_loop fuel' l'
      | Exit o l' => finish o l'
      end
    else timed_out l
  end.

End Detector.

(** The smallest sleep of a continuing iteration: the check interval or the
    100 ms of line 110 (a negative interval makes [time.sleep] raise, which
    leaves the 100 ms). *)
Definition pace (g : Globals) : Z :=
  if DOWNLOAD_CHECK_INTERVAL g <=? 0 then 100 else Z.min (DOWNLOAD_CHECK_INTERVAL g) 100.

(** Every iteration that does not leave the loop sleeps for at least
    [pace], so this many iterations exhaust any timeout (for a non-zero
    interval; with a zero interval the model's clock can stand still and
    the loop can spin). *)
Definition iterations (g : Globals) (timeout : Z) : nat :=
  Z.to_nat (timeout / pace g) + 2.

(** The locals at the entry of the loop (lines 63-66), the baseline
    listing done. *)
Definition initial_locals (start_time : Time) : Locals :=
  {| clock := start_time; last_size := -1; stable_time_start := None;
     polls := []; effects := [Listed start_time true] |}.

(** [get_downloaded_filename(driver, download_dir, timeout)], called when
    the clock reads [start_time].  [driver] is unused by the source;
    [download_dir] is the directory the world describes. *)
Definition get_downloaded_filename (g : Globals) (w : World) (start_time : Time)
           (timeout : Z) : Result :=
  match listing (w start_time) with
  | None =>
      {| outcome := Raise FileNotFoundError; finished_at := start_time;
         history := []; trace := [Listed start_time false] |}
  | Some names =>
      wait_loop g w start_time timeout (list_to_set names) (iterations g timeout)
                (initial_locals start_time)
  end.

(** ** Bounding the iterations *)

(** [n] iterations are enough to use up what is left of the timeout. *)
Definition enough (g : Globals) (start_time timeout : Z) (n : nat) (l : Locals) : Prop :=
  (1 <= n)%nat /\ timeout - (clock l - start_time) <= pace g * (Z.of_nat n - 1).

(** ** Invariants of a detection session *)

(** Poll times, newest first, never exceed [bound]. *)
Fixpoint descending (bound : Time) (ps : list Poll) : Prop :=
  match ps with
  | [] => True
  | p :: ps' => poll_time p <= bound /\ descending (poll_time p) ps'
  end.

(** A poll that leaves the stability timer running on [size]: it sampled
    [size] again, or it sampled nothing (no new entry, nothing but ignored
    temporary files, or an unreadable file). *)
Definition quiet (size : Z) (p : Poll) : Prop :=
  match poll_branch p with
  | StableWait _ s => s = size
  | Unreadable _ | NoNewFiles | NothingToCheck => True
  | _ => False
  end.

(** The newest polls form an uninterrupted stability window: the timer was
    started at [since] on [size] and every later poll kept it running. *)
Definition window_since (since : Time) (size : Z) (ps : list Poll) : Prop :=
  exists window f0 older,
    ps = window ++ {| poll_time := since; poll_branch := StableStart f0 size |} :: older
    /\ Forall (quiet size) window.

Definition timer_sound (l : Locals) : Prop :=
  match stable_time_start l with
  | None => True
  | Some since =>
      0 < last_size l /\ since <= clock l /\ window_since since (last_size l) (polls l)
  end.

(** Some post-baseline entry of the directory carries the in-progress suffix. *)
Definition marker_seen (d : Snapshot) (initial_files : gset string) : Prop :=
  exists names m, listing d = Some names /\ m ∈ set_minus names initial_files
                  /\ endswith m ".crdownload" = true.

(** The size a poll sampled, with the file it sampled it from. *)
Definition sampled (b : Branch) : option (string * Z) :=
  match b with
  | SizeChanged f s | StableStart f s | StableWait f s => Some (f, s)
  | _ => None
  end.

(** The recorded path of a poll agrees with the directory at that time. *)
Definition faithful (w : World) (initial_files : gset string) (p : Poll) : Prop :=
  (marker_seen (w (poll_time p)) initial_files ->
   exists a, poll_branch p = Downloading a)
  /\ (forall f s, sampled (poll_branch p) = Some (f, s) ->
      exists n, path_size (w (poll_time p)) f = Some n /\ Z.of_N n = s).

(** The value of [last_size] after the polls [ps] (newest first): the last
    size recorded, -1 when there is none since the last clearing. *)
Fixpoint size_after (ps : list Poll) : Z :=
  match ps with
  | [] => -1
  | p :: older =>
      match poll_branch p with
      | SizeChanged _ s => s
      | Vanished _ | Downloading _ => -1
      | _ => size_after older
      end
  end.

(** Every poll that sampled a size other than the one recorded before it
    took the path that clears the timer. *)
Fixpoint well_recorded (ps : list Poll) : Prop :=
  match ps with
  | [] => True
  | p :: older =>
      (forall f s, sampled (poll_branch p) = Some (f, s) ->
                   s <> size_after older -> poll_branch p = SizeChanged f s)
      /\ well_recorded older
  end.

Definition Inv (w : World) (initial_files : gset string) (l : Locals) : Prop :=
  descending (clock l) (polls l) /\ timer_sound l
  /\ Forall (faithful w initial_files) (polls l)
  /\ last_size l = size_after (polls l)
  /\ well_recorded (polls l).

(** What is known of a call that returned [f]. *)
Definition confirmed (g : Globals) (w : World) (initial_files : gset string)
           (f : string) (r : Result) : Prop :=
  exists since size names n,
    window_since since size (history r)
    /\ 0 < size
    /\ DOWNLOAD_STABILITY_TIME g <= finished_at r - since
    /\ descending (finished_at r) (history r)
    /\ Forall (faithful w initial_files) (history r)
    /\ listing (w (finished_at r)) = Some names
    /\ f ∈ set_minus names initial_files
    /\ endswith f ".crdownload" = false
    /\ endswith f ".tmp" = false
    /\ ~ marker_seen (w (finished_at r)) initial_files
    /\ path_size (w (finished_at r)) f = Some n
    /\ Z.of_N n = size.

(** ** Predicates on file-system calls and directories *)

(** The event is a directory listing; a successful one. *)
Definition is_listing (e : Event) : Prop := exists t ok, e = Listed t ok.
Definition is_good_listing (e : Event) : Prop := exists t, e = Listed t true.

(** Every size query on an existing entry succeeds. *)
Definition sizes_readable (d : Snapshot) : Prop :=
  forall x, path_exists d x = true -> path_size d x <> None.

(** The entry is absent or empty. *)
Definition no_valid_file (d : Snapshot) (x : string) : Prop :=
  path_exists d x = false \/ path_size d x = Some 0%N.

(** The entry exists and is not empty. *)
Definition valid_file (d : Snapshot) (x : string) : Prop :=
  path_exists d x = true /\ exists n, path_size d x = Some n /\ (0 < n)%N.

(** ** What a poll finds in the directory *)

(** What lines 69-111 read off the directory at one instant, whatever the
    locals are: the listing fails; there is no post-baseline entry; one of
    them carries the in-progress suffix; none of them is a candidate; the
    candidate does not exist; its size cannot be read; its size. *)
Inductive Seen :=
| SeenGone
| SeenNothing
| SeenMarker
| SeenNoCandidate
| SeenMissing (f : string)
| SeenUnreadable (f : string)
| SeenSize (f : string) (size : Z).

Definition observe (d : Snapshot) (initial_files : gset string) : Seen :=
  match listing d with
  | None => SeenGone
  | Some names =>
    match set_minus names initial_files with
    | [] => SeenNothing
    | new_files =>
      let '(downloading, potential_filename, _) := scan new_files None in
      if downloading then SeenMarker
      else
        match truthy potential_filename with
        | None => SeenNoCandidate
        | Some f =>
          if path_exists d f then
            match path_size d f with
            | None => SeenUnreadable f
            | Some n => SeenSize f (Z.of_N n)
            end
          else SeenMissing f
        end
    end
  end.

(** What the poll that took a given path had found. *)
Definition seen_by (b : Branch) : Seen :=
  match b with
  | NoNewFiles => SeenNothing
  | Downloading _ => SeenMarker
  | NothingToCheck => SeenNoCandidate
  | Vanished f => SeenMissing f
  | Unreadable f => SeenUnreadable f
  | SizeChanged f s | StableStart f s | StableWait f s => SeenSize f s
  end.

(** The sleep an iteration asks for: 100 ms after a failed size query
    (line 110), the check interval otherwise. *)
Definition nap (g : Globals) (seen : Seen) : Z :=
  match seen with
  | SeenUnreadable _ => 100
  | _ => DOWNLOAD_CHECK_INTERVAL g
  end.

(** The instant of the [n]-th poll (counting from 0) of a call that is
    still polling then: it is determined by the directory alone. *)
Fixpoint tick (g : Globals) (w : World) (initial_files : gset string)
         (start_time : Time) (n : nat) : Time :=
  match n with
  | O => start_time
  | S n' =>
      let t := tick g w initial_files start_time n' in
      t + nap g (observe (w t) initial_files) + Z.of_N (delay (w t))
  end.

(** An observation that is compatible with a timer running on [size]: the
    same size again, or no size at all (no new entry, no candidate among
    the new entries, or a candidate that cannot be sized). *)
Definition steady (size : Z) (seen : Seen) : Prop :=
  match seen with
  | SeenSize _ s => s = size
  | SeenNothing | SeenNoCandidate | SeenUnreadable _ => True
  | _ => False
  end.

(** The recorded polls (newest first) took place at the instants [tick]
    gives, each took the path of what the directory showed then, and the
    sleep after each did not go back in time. *)
Fixpoint timed (g : Globals) (w : World) (initial_files : gset string)
         (start_time : Time) (ps : list Poll) : Prop :=
  match ps with
  | [] => True
  | p :: older =>
      poll_time p = tick g w initial_files start_time (length older)
      /\ seen_by (poll_branch p) = observe (w (poll_time p)) initial_files
      /\ poll_time p <= tick g w initial_files start_time (S (length older))
      /\ timed g w initial_files start_time older
  end.

Definition on_time (g : Globals) (w : World) (initial_files : gset string)
           (start_time : Time) (l : Locals) : Prop :=
  clock l = tick g w initial_files start_time (length (polls l))
  /\ timed g w initial_files start_time (polls l).

(** ** Directories in which one file settles *)




(** ** Fixtures: concrete directories for the examples *)

(** A directory holding exactly [files] (name, size), all readable. *)
Definition dir (files : list (string * N)) : Snapshot :=
  {| listing := Some (files.*1);
     path_exists := λ f, bool_decide (f ∈ files.*1);
     path_size := λ f, (λ p, p.2.2) <$> list_find (λ p, p.1 = f) files;
     remove_fails := λ _, false;
     delay := 0 |}.

(** The directory has vanished. *)
Definition gone : Snapshot :=
  {| listing := None; path_exists := λ _, false; path_size := λ _, None;
     remove_fails := λ _, true; delay := 0 |}.

(** ** Scenarios *)

Definition old_files : list (string * N) := [("old.txt"%string, 5%N)].

(** Nothing ever arrives. *)
Definition w_idle : World := λ _, dir old_files.

(** [report.pdf] (1024 bytes) is there from [t0] on. *)
Definition w_arrives (t0 : Time) : World := λ t,
  if t <? t0 then dir old_files
  else dir (old_files ++ [("report.pdf"%string, 1024%N)]).

(** The spec's scenario: a marker at 2 s, renamed to the final file at 4 s. *)
Definition w_renamed : World := λ t,
  if t <? 2000 then dir old_files
  else if t <? 4000 then dir (old_files ++ [("report.pdf.crdownload"%string, 300%N)])
  else dir (old_files ++ [("report.pdf"%string, 1024%N)]).

(** The spec's scenario: 500 bytes at 1 s, 800 bytes from 3 s on. *)
Definition w_grows : World := λ t,
  if t <? 1000 then dir old_files
  else if t <? 3000 then dir (old_files ++ [("data.bin"%string, 500%N)])
  else dir (old_files ++ [("data.bin"%string, 800%N)]).

(** An empty file that never grows. *)
Definition w_empty_file : World := λ t,
  if t <? 1000 then dir old_files
  else dir (old_files ++ [("empty.bin"%string, 0%N)]).

(** The directory disappears at 2 s. *)
Definition w_vanishes : World := λ t,
  if t <? 2000 then dir old_files else gone.

(** Two markers are left at the timeout; the final file of the first one
    exists but cannot be sized, that of the second one is absent. *)
Definition w_stuck : World := λ t,
  if t <? 1000 then dir old_files
  else
    {| listing :=
         Some ["old.txt"; "a.bin"; "a.bin.crdownload"; "b.bin.crdownload"]%string;
       path_exists := λ f,
         bool_decide
           (f ∈ ["old.txt"; "a.bin"; "a.bin.crdownload"; "b.bin.crdownload"]%string);
       path_size := λ f, if decide (f = "a.bin"%string) then None else Some 10%N;
       remove_fails := λ _, false;
       delay := 0 |}.

(** Two markers are left at the timeout; the final file of the first one
    is complete, that of the second one is absent. *)
Definition w_leftover : World := λ t,
  if t <? 1000 then dir old_files
  else dir (old_files ++ [("a.bin"%string, 10%N); ("a.bin.crdownload"%string, 5%N);
                          ("b.bin.crdownload"%string, 7%N)]).

(** The same directory, every iteration outlasting its sleep by [ms]. *)
Definition lagging (ms : N) (w : World) : World := λ t,
  {| listing := listing (w t); path_exists := path_exists (w t);
     path_size := path_size (w t); remove_fails := remove_fails (w t);
     delay := ms |}.


(** The first new entry, a marker, appears 9.6 s after the start. *)
Definition w_late_marker : World := λ t,
  if t <? 9600 then dir old_files
  else dir (old_files ++ [("late.bin.crdownload"%string, 10%N)]).

Definition slow_globals : Globals :=
  {| DOWNLOAD_CHECK_INTERVAL := 2000; DOWNLOAD_STABILITY_TIME := 3000 |}.

(** ** [create_download_dir_if_not_exists] (lines 42-48)

    The disk is a finite map from paths to what sits there; a path is the
    list of its components, innermost first, the empty list being the root
    (which always exists and is a directory). *)

Module DownloadDir.

Inductive Kind := RegularFile | Directory.

Inductive OSError := FileExistsError | NotADirectoryError | FileNotFoundError.

Inductive Message :=
| Creating (directory : list string)        (* line 45 *)
| UsingExisting (directory : list string).  (* line 48 *)

(** [os.path.exists(p)] *)
Definition path_present (disk : gmap (list string) Kind) (p : list string) : bool :=
  match p with
  | [] => true
  | _ :: _ => match disk !! p with Some _ => true | None => false end
  end.

(** [os.path.isdir(p)] *)
Definition isdir (disk : gmap (list string) Kind) (p : list string) : bool :=
  match p with
  | [] => true
  | _ :: _ => match disk !! p with Some Directory => true | _ => false end
  end.

(** [os.mkdir(p)]: the disk afterwards, and the error raised if any. *)
Definition mkdir (p : list string) (disk : gmap (list string) Kind)
  : gmap (list string) Kind * option OSError :=
  match p with
  | [] => (disk, Some FileExistsError)
  | _ :: parent =>
      if path_present disk p then (disk, Some FileExistsError)
      else if isdir disk parent then (<[p := Directory]> disk, None)
      else if path_present disk parent then (disk, Some NotADirectoryError)
      else (disk, Some FileNotFoundError)
  end.

(** [os.makedirs(p)] with [exist_ok=False]: a missing parent is made first
    (a FileExistsError of that recursive call is passed over), then the
    leaf is made. *)
Fixpoint makedirs (p : list string) (disk : gmap (list string) Kind)
  : gmap (list string) Kind * option OSError :=
  match p with
  | [] => mkdir [] disk
  | _ :: parent =>
      let head_made :=
        match parent with
        | [] => (disk, None)
        | _ :: _ =>
            if path_present disk parent then (disk, None)
            else match makedirs parent disk with
                 | (disk', Some FileExistsError) => (disk', None)
                 | r => r
                 end
        end in
      match head_made with
      | (disk', Some e) => (disk', Some e)
      | (disk', None) => mkdir p disk'
      end
  end.

(** The function: what it prints, the disk afterwards, the error raised. *)
Definition create_download_dir_if_not_exists (directory : list string)
           (disk : gmap (list string) Kind)
  : list Message * (gmap (list string) Kind * option OSError) :=
  if negb (path_present disk directory)
  then ([Creating directory], makedirs directory disk)
  else ([UsingExisting directory], (disk, None)).

(** A disk with /home/alice, and the download directory below it. *)
Definition home_disk : gmap (list string) Kind :=
  {[ ["home"%string] := Directory; ["alice"; "home"]%string := Directory ]}.

Definition download_dir : list string := ["selenium_downloads"; "alice"; "home"]%string.

End DownloadDir.

(** ** The file name of download_mfa.py (lines 67-87)

    The part of [download_file_with_mfa_prompt] that chooses the name of
    the file to write, with the pieces of [str] and [os.path] it calls.
    [urlparse(url).path] is an input. *)

Module DownloadMfa.

(** [c in chars] *)
Fixpoint has_char (c : ascii) (chars : string) : bool :=
  match chars with
  | EmptyString => false
  | String a rest => Ascii.eqb a c || has_char c rest
  end.

(** [s.split(sep)] for a non-empty [sep]: the pieces between the
    occurrences of [sep], found from left to right without overlap.
    [skip] counts the characters of a found occurrence still to pass,
    [acc] is the piece being read. *)
Fixpoint split_go (sep s : string) (skip : nat) (acc : string) : list string :=
  match s with
  | EmptyString => [acc]
  | String c s' =>
      match skip with
      | S k => split_go sep s' k acc
      | O =>
          if String.prefix sep s
          then acc :: split_go sep s' (String.length sep - 1) EmptyString
          else split_go sep s' 0 (acc +:+ String c EmptyString)
      end
  end.

Definition split (s sep : string) : list string := split_go sep s 0 EmptyString.

(** [s.lstrip(chars)], [s.rstrip(chars)], [s.strip(chars)] *)
Fixpoint lstrip (chars s : string) : string :=
  match s with
  | EmptyString => EmptyString
  | String c s' => if has_char c chars then lstrip chars s' else s
  end.

Fixpoint rstrip (chars s : string) : string :=
  match s with
  | EmptyString => EmptyString
  | String c s' =>
      match rstrip chars s' with
      | EmptyString => if has_char c chars then EmptyString else String c EmptyString
      | r => String c r
      end
  end.

Definition strip (chars s : string) : string := rstrip chars (lstrip chars s).

(** [os.path.basename(p)] (posixpath): what follows the last slash. *)
Definition basename (p : string) : string :=
  substring (Z.to_nat (PyStr.rfind p "/" + 1)) (String.length p) p.

(** The characters of line 75: double quote, single quote, space. *)
Definition quote_chars : string := String (ascii_of_nat 34) "' ".

(** Which message of lines 83-87 is printed. *)
Inductive Origin := FromHeader | FromUrl | Default.

(** Lines 68-75: the name the Content-Disposition header gives, if any. *)
Definition header_filename (content_disposition : option string) : option string :=
  match content_disposition with
  | None => None
  | Some EmptyString => None
  | Some cd =>
      match split cd "filename=" with
      | _ :: part1 :: _ => Some (strip quote_chars part1)
      | _ => None
      end
  end.

(** Lines 68-87: the file name and where it came from. *)
Definition determine_filename (content_disposition : option string)
           (url_path : string) : string * Origin :=
  match header_filename content_disposition with
  | Some (String c rest) => (String c rest, FromHeader)
  | _ =>
      match basename url_path with
      | EmptyString => ("downloaded_file"%string, Default)
      | name => (name, FromUrl)
      end
  end.

End DownloadMfa.

(** ** Reasoning about the loop *)

Section LoopRule.

Variables (g : Globals) (w : World) (start_time : Time) (timeout : Z).
Variable initial_files : gset string.
Variable P : nat -> Locals -> Prop.
Variable Q : Result -> Prop.

Hypothesis body_ok : forall n l,
  P (S n) l -> clock l - start_time < timeout ->
  match loop_body g w initial_files l with
  | Continue l' => P n l'
  | Exit o l' => Q (finish o l')
  end.
Hypothesis exit_ok : forall n l,
  P (S n) l -> timeout <= clock l - start_time ->
  Q (timed_out w initial_files l).
Hypothesis spin_ok : forall l, P 0%nat l -> Q (finish Spin l).

(** A Hoare-style rule for [wait_loop]: [P] is the loop invariant,
    indexed by the iterations left, [Q] the postcondition. *)
Lemma wait_loop_rule fuel l :
  P fuel l -> Q (wait_loop g w start_time timeout initial_files fuel l).
Proof.
  revert l. induction fuel as [|n IH]; intros l HP; simpl.
  - now apply spin_ok.
  - destruct (Z.ltb_spec (clock l - start_time) timeout) as [Hlt|Hge].
    + specialize (body_ok n l HP Hlt).
      destruct (loop_body g w initial_files l); auto.
    + eapply exit_ok; eauto.
Qed.

End LoopRule.

Lemma pace_pos g : 0 < pace g.
Proof. unfold pace. destruct (Z.leb_spec (DOWNLOAD_CHECK_INTERVAL g) 0); lia. Qed.

Lemma enough_iterations g start_time timeout l :
  clock l = start_time -> enough g start_time timeout (iterations g timeout) l.
Proof.
  intros Hc. unfold enough, iterations.
  pose proof (pace_pos g) as Hp. split; [lia|].
  rewrite Hc, Z.sub_diag, Z.sub_0_r.
  destruct (Z.le_gt_cases 0 timeout) as [H0|H0].
  - rewrite Nat2Z.inj_add, Z2Nat.id by (apply Z.div_pos; lia).
    pose proof (Z.mul_succ_div_gt timeout (pace g) Hp). lia.
  - nia.
Qed.

(** Unfolds one iteration into its paths. *)
Ltac body_paths :=
  unfold loop_body, sleep in *; cbv zeta in *;
  repeat (case_match; simplify_eq/=; try done).

(** A continuing iteration advances the clock by at least [pace] when the
    check interval is not zero. *)
Lemma loop_body_advances g w initial_files l l' :
  DOWNLOAD_CHECK_INTERVAL g <> 0 ->
  loop_body g w initial_files l = Continue l' ->
  clock l + pace g <= clock l'.
Proof.
  intros Hi Hb. unfold pace.
  destruct (Z.leb_spec (DOWNLOAD_CHECK_INTERVAL g) 0);
    body_paths; lia.
Qed.

Lemma enough_step g w initial_files start_time timeout n l l' :
  DOWNLOAD_CHECK_INTERVAL g <> 0 ->
  enough g start_time timeout (S n) l ->
  clock l - start_time < timeout ->
  loop_body g w initial_files l = Continue l' ->
  enough g start_time timeout n l'.
Proof.
  intros Hi [_ He] Hlt Hb.
  pose proof (loop_body_advances _ _ _ _ _ Hi Hb).
  pose proof (pace_pos g). unfold enough. split; nia.
Qed.

Lemma descending_app_older b window p older q :
  descending b (window ++ p :: older) -> q ∈ older -> poll_time q <= poll_time p.
Proof.
  revert b. induction window as [|x window IH]; simpl; intros b [_ H] Hq.
  - clear b. revert p H. induction older as [|y older IH]; intros p H.
    + inversion Hq.
    + destruct H as [Hy H]. apply elem_of_cons in Hq as [->|Hq]; [done|].
      specialize (IH Hq y H). lia.
  - eauto.
Qed.

Lemma scan_downloading new_files p :
  (scan new_files p).1.1 = true <->
  exists m, m ∈ new_files /\ endswith m ".crdownload" = true.
Proof.
  revert p. induction new_files as [|x xs IH]; intros p; simpl.
  - split; [done|]. intros (m & Hm & _). inversion Hm.
  - destruct (endswith x ".crdownload") eqn:Hx; simpl.
    + split; [|done]. intros _. exists x. split; [left|done].
    + assert (Hrest : (exists m, m ∈ x :: xs /\ endswith m ".crdownload" = true)
                      <-> (exists m, m ∈ xs /\ endswith m ".crdownload" = true)).
      { split; intros (m & Hm & He).
        - apply elem_of_cons in Hm as [->|Hm]; [congruence|eauto].
        - exists m. split; [by right|done]. }
      rewrite Hrest. destruct (negb (endswith x ".tmp")); apply IH.
Qed.

Lemma scan_potential new_files p f a :
  scan new_files p = (false, Some f, a) ->
  p = Some f
  \/ (f ∈ new_files /\ endswith f ".crdownload" = false /\ endswith f ".tmp" = false).
Proof.
  revert p. induction new_files as [|x xs IH]; intros p; simpl.
  - intros [= ->]. by left.
  - destruct (endswith x ".crdownload") eqn:Hx; [done|].
    destruct (endswith x ".tmp") eqn:Ht; simpl; intros Hs.
    + destruct (IH _ Hs) as [?|(?&?&?)]; [by left|right].
      split; [by right|done].
    + destruct (IH _ Hs) as [[= ->]|(?&?&?)]; right.
      * split; [left|done].
      * split; [by right|done].
Qed.

Lemma truthy_Some name f : truthy name = Some f -> name = Some f.
Proof. destruct name; simpl; [|done]. case_decide; congruence. Qed.

Section Safety.

Variables (g : Globals) (w : World) (initial_files : gset string).

#[local] Arguments scan : simpl never.

Lemma window_since_quiet since size p ps :
  quiet size p -> window_since since size ps -> window_since since size (p :: ps).
Proof.
  intros Hq (window & f0 & older & -> & Hw).
  exists (p :: window), f0, older. split; [done|]. by constructor.
Qed.

Lemma window_since_start since size f ps :
  window_since since size
    ({| poll_time := since; poll_branch := StableStart f size |} :: ps).
Proof. exists [], f, ps. split; [done|]. constructor. Qed.

Lemma faithful_poll t b names :
  listing (w t) = Some names ->
  ((exists m, m ∈ set_minus names initial_files /\ endswith m ".crdownload" = true) ->
   exists a, b = Downloading a) ->
  (forall f s, sampled b = Some (f, s) ->
               exists n, path_size (w t) f = Some n /\ Z.of_N n = s) ->
  faithful w initial_files {| poll_time := t; poll_branch := b |}.
Proof.
  intros Hl Hm Hs. split; simpl; [|done].
  intros (names' & m & Hl' & Hin & He). rewrite Hl in Hl'.
  injection Hl' as <-. eauto.
Qed.

Lemma no_marker_when_sampling new_files a b :
  scan new_files None = (false, a, b) ->
  ~ exists m, m ∈ new_files /\ endswith m ".crdownload" = true.
Proof.
  intros Hs Hm. apply (scan_downloading new_files None) in Hm.
  rewrite Hs in Hm. done.
Qed.

(** Closes the parts of [Inv] after one iteration. *)
Ltac inv_step :=
  repeat match goal with
  | H : (_ <? _) = false |- _ => apply Z.ltb_ge in H
  | H : (_ && _) = true |- _ => apply andb_prop in H as [? ?]
  | H : (_ =? _) = true |- _ => apply Z.eqb_eq in H
  | H : (0 <? _) = true |- _ => apply Z.ltb_lt in H
  | H : _ /\ _ |- _ => destruct H
  end;
  repeat split;
  try lia; try done;
  try (by constructor);
  try (apply window_since_quiet; [simpl; (done || lia)|done]);
  try match goal with
      | H : Z.of_N _ = last_size _ |- window_since _ _ _ =>
          rewrite <- H; apply window_since_start
      end;
  try (simpl; intros; simplify_eq; (done || congruence)).

Lemma loop_body_preserves l l' :
  Inv w initial_files l ->
  (loop_body g w initial_files l = Continue l'
   \/ exists o, loop_body g w initial_files l = Exit o l') ->
  Inv w initial_files l'.
Proof.
  intros (Hd & Ht & Hf & Hs & Hr) [Hb|[o Hb]]; unfold Inv, timer_sound in *.
  all: body_paths.
  all: try match goal with
       | Hl : listing _ = Some _ |- _ /\ _ /\ Forall _ (?p :: _) /\ _ =>
           assert (faithful w initial_files p)
       end.
  all: try (eapply faithful_poll; [eassumption| |simpl; intros; simplify_eq; eauto]).
  all: try (intros Hm; exfalso;
            match goal with
            | H : set_minus _ _ = [] |- _ => rewrite H in Hm;
                destruct Hm as (? & Hm & _); inversion Hm
            | H : set_minus _ _ = _ :: _, Hs : scan _ None = (false, _, _) |- _ =>
                rewrite H in Hm; exact (no_marker_when_sampling _ _ _ Hs Hm)
            end).
  all: try (intros _; eauto).
  all: inv_step.
Qed.

Lemma loop_body_confirms l l' f :
  Inv w initial_files l ->
  loop_body g w initial_files l = Exit (Return (Some f)) l' ->
  confirmed g w initial_files f (finish (Return (Some f)) l').
Proof.
  intros (Hd & Ht & Hf & _) Hb. unfold timer_sound in *.
  body_paths.
  repeat match goal with
  | H : (_ && _) = true |- _ => apply andb_prop in H as [? ?]
  | H : (_ =? _) = true |- _ => apply Z.eqb_eq in H
  | H : (0 <? _) = true |- _ => apply Z.ltb_lt in H
  | H : (_ <=? _) = true |- _ => apply Z.leb_le in H
  | H : _ /\ _ |- _ => destruct H
  end.
  match goal with
  | Hs : scan _ None = (false, ?o, _), Ht : truthy ?o = Some _ |- _ =>
      apply truthy_Some in Ht; subst o;
      pose proof (no_marker_when_sampling _ _ _ Hs) as Hno;
      apply scan_potential in Hs as [?|(Hin & Hc & Htmp)]; [done|]
  end.
  match goal with
  | Hl : listing _ = Some ?names, Hn : set_minus ?names _ = _,
    Hp : path_size _ _ = Some ?n, Hst : stable_time_start _ = Some ?t |- _ =>
      exists t, (last_size l), names, n; rewrite <- Hn in Hin, Hno;
      pose proof Hl as Hlist
  end.
  simpl. repeat split; try done; try lia.
  intros (names' & m & Hl' & Hm & He).
  rewrite Hlist in Hl'. injection Hl' as <-. eauto.
Qed.

End Safety.

(** ** What every session guarantees *)

Lemma get_downloaded_filename_unfold g w start_time timeout names :
  listing (w start_time) = Some names ->
  get_downloaded_filename g w start_time timeout =
  wait_loop g w start_time timeout (list_to_set names) (iterations g timeout)
            (initial_locals start_time).
Proof. intros H. unfold get_downloaded_filename. by rewrite H. Qed.

Lemma Inv_initial w initial_files start_time :
  Inv w initial_files (initial_locals start_time).
Proof. repeat split; simpl; auto. Qed.

(** The history of any call is chronological, agrees with the directory
    and records every differing sample as a change. *)
Lemma session_history g w start_time timeout names :
  listing (w start_time) = Some names ->
  let r := get_downloaded_filename g w start_time timeout in
  descending (finished_at r) (history r)
  /\ Forall (faithful w (list_to_set names)) (history r)
  /\ well_recorded (history r).
Proof.
  intros Hl r. subst r. rewrite (get_downloaded_filename_unfold _ _ _ _ _ Hl).
  apply (wait_loop_rule g w start_time timeout (list_to_set names)
           (λ _ l, Inv w (list_to_set names) l)).
  - intros _ l HI _.
    destruct (loop_body g w (list_to_set names) l) as [l'|o l'] eqn:Hb.
    + eapply loop_body_preserves; eauto.
    + assert (Inv w (list_to_set names) l') as (? & ? & ? & ? & ?)
        by (eapply loop_body_preserves; eauto).
      done.
  - intros _ l (? & ? & ? & ? & ?) _. unfold timed_out.
    destruct (listing (w (clock l))); done.
  - intros l (? & ? & ? & ? & ?). done.
  - apply Inv_initial.
Qed.

(** A call that returns a file name has seen a full stability window. *)
Lemma completed_facts g w start_time timeout f :
  outcome (get_downloaded_filename g w start_time timeout) = Return (Some f) ->
  exists names,
    listing (w start_time) = Some names
    /\ confirmed g w (list_to_set names) f
         (get_downloaded_filename g w start_time timeout).
Proof.
  destruct (listing (w start_time)) as [names|] eqn:Hl.
  2: { unfold get_downloaded_filename. rewrite Hl. done. }
  intros Ho. exists names. split; [done|]. revert Ho.
  rewrite (get_downloaded_filename_unfold _ _ _ _ _ Hl).
  apply (wait_loop_rule g w start_time timeout (list_to_set names)
           (λ _ l, Inv w (list_to_set names) l)
           (λ r, outcome r = Return (Some f) ->
                 confirmed g w (list_to_set names) f r)).
  - intros _ l HI _.
    destruct (loop_body g w (list_to_set names) l) as [l'|o l'] eqn:Hb.
    + eapply loop_body_preserves; eauto.
    + simpl. intros ->. eapply loop_body_confirms; eauto.
  - intros _ l _ _. unfold timed_out.
    destruct (listing (w (clock l))); done.
  - done.
  - apply Inv_initial.
Qed.

Lemma loop_body_continue_effects g w initial_files l l' :
  loop_body g w initial_files l = Continue l' ->
  effects l' = Listed (clock l) true :: effects l.
Proof. intros Hb. body_paths. Qed.

Lemma loop_body_exit_effects g w initial_files l o l' :
  loop_body g w initial_files l = Exit o l' ->
  clock l' = clock l
  /\ ((o = Return None /\ listing (w (clock l)) = None
       /\ effects l' = Listed (clock l) false :: effects l)
      \/ (o <> Spin /\ listing (w (clock l)) <> None
          /\ effects l' = Listed (clock l) true :: effects l)).
Proof. intros Hb. body_paths; split; try done; ((by left) || (by right)). Qed.

(** What one iteration does to the clock and to the history. *)
Lemma loop_body_step g w initial_files l l' :
  loop_body g w initial_files l = Continue l' ->
  ((0 <= DOWNLOAD_CHECK_INTERVAL g
    /\ clock l' = clock l + DOWNLOAD_CHECK_INTERVAL g + Z.of_N (delay (w (clock l))))
   \/ clock l' = clock l + 100 + Z.of_N (delay (w (clock l))))
  /\ exists b, polls l' = {| poll_time := clock l; poll_branch := b |} :: polls l.
Proof. intros Hb. body_paths; split; eauto; left; lia. Qed.

(** With a check interval other than zero the iteration bound is never
    reached: every call ends by a return or by an exception. *)
Lemma get_downloaded_filename_ends g w start_time timeout :
  DOWNLOAD_CHECK_INTERVAL g <> 0 ->
  outcome (get_downloaded_filename g w start_time timeout) <> Spin.
Proof.
  intros Hi. destruct (listing (w start_time)) as [names|] eqn:Hl.
  2: { unfold get_downloaded_filename. rewrite Hl. done. }
  rewrite (get_downloaded_filename_unfold _ _ _ _ _ Hl).
  apply (wait_loop_rule g w start_time timeout (list_to_set names)
           (enough g start_time timeout) (λ r, outcome r <> Spin)).
  - intros n l He Hlt.
    destruct (loop_body g w (list_to_set names) l) as [l'|o l'] eqn:Hb.
    + eapply enough_step; eauto.
    + destruct (loop_body_exit_effects _ _ _ _ _ _ Hb)
        as [_ [(-> & _)|(Ho & _)]]; done.
  - intros n l _ _. unfold timed_out. destruct (listing (w (clock l))); done.
  - intros l [He _]. lia.
  - by apply enough_iterations.
Qed.

(** The default timeout of five minutes on a directory where nothing
    arrives. *)
Example default_timeout_elapses :
  outcome (get_downloaded_filename source_globals w_idle 0 MAX_WAIT_TIME) = Return None
  /\ finished_at (get_downloaded_filename source_globals w_idle 0 MAX_WAIT_TIME)
     = MAX_WAIT_TIME.
Proof. split; vm_compute; reflexivity. Qed.

(** ** Safety of a reported completion *)

(** C4. The detector never reports a zero-byte file: whenever
    [get_downloaded_filename] returns a file name, the size of that file,
    sampled at the poll that returns it, is not zero. *)
Theorem completed_file_is_not_empty g w start_time timeout f :
  outcome (get_downloaded_filename g w start_time timeout) = Return (Some f) ->
  exists n,
    path_size (w (finished_at (get_downloaded_filename g w start_time timeout))) f
    = Some n
    /\ (0 < n)%N.
Proof.
  intros Ho.
  destruct (completed_facts _ _ _ _ _ Ho)
    as (names0 & _ & since & size & names & n & H).
  exists n. split; [tauto|]. lia.
Qed.

Lemma completed_file_is_not_empty_witness :
  exists n,
    path_size (w_arrives 4000
      (finished_at (get_downloaded_filename source_globals (w_arrives 4000) 0 10000)))
      "report.pdf" = Some n
    /\ (0 < n)%N.
Proof.
  apply (completed_file_is_not_empty source_globals (w_arrives 4000) 0 10000).
  vm_compute. reflexivity.
Defined.

(** An empty file that stays empty for nine seconds is not reported. *)
Example empty_file_times_out :
  outcome (get_downloaded_filename source_globals w_empty_file 0 10000) = Return None.
Proof. vm_compute. reflexivity. Qed.

(** C10. A returned file name is an entry that was not in the baseline
    snapshot, and it ends neither in ".crdownload" nor in ".tmp". *)
Theorem completed_file_is_new_and_final g w start_time timeout f :
  outcome (get_downloaded_filename g w start_time timeout) = Return (Some f) ->
  exists names0,
    listing (w start_time) = Some names0
    /\ (f ∉ names0)
    /\ endswith f ".crdownload" = false
    /\ endswith f ".tmp" = false.
Proof.
  intros Ho.
  destruct (completed_facts _ _ _ _ _ Ho)
    as (names0 & Hl & since & size & names & n & H).
  destruct H as (_ & _ & _ & _ & _ & _ & Hin & Hc & Ht & _).
  exists names0. repeat split; try done.
  unfold set_minus in Hin. apply list_elem_of_filter in Hin as [Hnot _].
  intros Hf. apply Hnot. by apply elem_of_list_to_set.
Qed.

Lemma completed_file_is_new_and_final_witness :
  exists names0,
    listing (w_renamed 0) = Some names0
    /\ ("report.pdf"%string ∉ names0)
    /\ endswith "report.pdf" ".crdownload" = false
    /\ endswith "report.pdf" ".tmp" = false.
Proof.
  apply (completed_file_is_new_and_final source_globals w_renamed 0 10000).
  vm_compute. reflexivity.
Defined.

(** ** Polls and what the directory showed *)

Section Observed.

Variables (g : Globals) (w : World) (initial_files : gset string).
Variable start_time : Time.

#[local] Arguments scan : simpl never.

(** A continuing iteration records the path of what the directory showed
    and sleeps accordingly. *)
Lemma loop_body_observed l l' :
  loop_body g w initial_files l = Continue l' ->
  exists b,
    polls l' = {| poll_time := clock l; poll_branch := b |} :: polls l
    /\ seen_by b = observe (w (clock l)) initial_files
    /\ clock l' = clock l + nap g (seen_by b) + Z.of_N (delay (w (clock l)))
    /\ 0 <= nap g (seen_by b).
Proof.
  intros Hb. unfold observe.
  body_paths; eexists; (split; [reflexivity|]); simpl; repeat split; lia.
Qed.

(** An iteration returns the file whose size it has just read, that size
    being the recorded one, once the timer has run long enough. *)
Lemma loop_body_returns_seen l f l' :
  loop_body g w initial_files l = Exit (Return (Some f)) l' ->
  observe (w (clock l)) initial_files = SeenSize f (last_size l)
  /\ 0 < last_size l
  /\ polls l' = polls l
  /\ clock l' = clock l
  /\ exists since,
       stable_time_start l = Some since
       /\ DOWNLOAD_STABILITY_TIME g <= clock l - since.
Proof.
  intros Hb. unfold observe. body_paths.
  repeat split; try lia; [f_equal; lia|eexists; split; [done|lia]].
Qed.

Lemma loop_body_on_time l l' :
  on_time g w initial_files start_time l ->
  loop_body g w initial_files l = Continue l' ->
  on_time g w initial_files start_time l'.
Proof.
  intros [Hc Ht] Hb.
  destruct (loop_body_observed _ _ Hb) as (b & Hp & Hseen & Hclock & Hnap).
  assert (Hnext : clock l'
                  = tick g w initial_files start_time (S (length (polls l)))).
  { simpl. rewrite <- Hc, <- Hseen. done. }
  unfold on_time. rewrite Hp. split; [exact Hnext|].
  cbn [timed poll_time poll_branch]. rewrite <- Hnext.
  repeat split; try done. lia.
Qed.

End Observed.

(** Polls that keep the timer leave the recorded size as it was. *)
Lemma size_after_quiet size window rest :
  Forall (quiet size) window -> size_after (window ++ rest) = size_after rest.
Proof.
  induction 1 as [|p window Hq _ IH]; [done|]. simpl.
  unfold quiet in Hq. destruct (poll_branch p); done.
Qed.

Lemma well_recorded_app newer older :
  well_recorded (newer ++ older) -> well_recorded older.
Proof. induction newer as [|p newer IH]; simpl; [done|]. intros [_ H]. auto. Qed.

(** A recorded size was recorded by a poll that read it, and every poll
    since has read the same size or none. *)
Lemma size_after_recorded ps size :
  size_after ps = size -> size <> -1 -> well_recorded ps ->
  exists mid t0 c older,
    ps = mid ++ {| poll_time := t0; poll_branch := SizeChanged c size |} :: older
    /\ Forall (λ p, steady size (seen_by (poll_branch p))) mid.
Proof.
  intros Hs Hne. induction ps as [|p ps IH]; simpl in *; [congruence|].
  intros [Hp Hr].
  destruct p as [t b].
  assert (Hrest : size_after ps = size ->
                  steady size (seen_by b) ->
                  exists mid t0 c older,
                    {| poll_time := t; poll_branch := b |} :: ps
                    = mid ++ {| poll_time := t0; poll_branch := SizeChanged c size |}
                             :: older
                    /\ Forall (λ p, steady size (seen_by (poll_branch p))) mid).
  { intros Hs' Hb. destruct (IH Hs' Hr) as (mid & t0 & c & older & -> & Hmid).
    exists ({| poll_time := t; poll_branch := b |} :: mid), t0, c, older.
    split; [done|]. by constructor. }
  destruct b as [|a| |c|c|c s|c s|c s]; simpl in *; try congruence;
    try (apply Hrest; done).
  - exists [], t, c, ps. subst s. split; [done|constructor].
  - apply Hrest; [done|]. simpl.
    destruct (decide (s = size_after ps)) as [?|Hd]; [congruence|].
    specialize (Hp c s eq_refl Hd). discriminate.
  - apply Hrest; [done|]. simpl.
    destruct (decide (s = size_after ps)) as [?|Hd]; [congruence|].
    specialize (Hp c s eq_refl Hd). discriminate.
Qed.

Section Ticks.

Variables (g : Globals) (w : World) (initial_files : gset string).
Variable start_time : Time.

Lemma timed_app newer older :
  timed g w initial_files start_time (newer ++ older) ->
  timed g w initial_files start_time older.
Proof.
  induction newer as [|p newer IH]; [done|]. intros (_ & _ & _ & H). auto.
Qed.

(** The polls made do not go back in time. *)
Lemma timed_mono ps i j :
  timed g w initial_files start_time ps ->
  (i <= j <= length ps)%nat ->
  tick g w initial_files start_time i <= tick g w initial_files start_time j.
Proof.
  intros Ht. revert i j. induction ps as [|p ps IH]; intros i j Hij.
  - simpl in Hij. assert (i = j) as -> by lia. lia.
  - destruct Ht as (Hp & _ & Hnext & Ht). rewrite Hp in Hnext.
    destruct (decide (j = S (length ps))) as [->|Hj].
    + destruct (decide (i = S (length ps))) as [->|Hi]; [lia|].
      specialize (IH Ht i (length ps) ltac:(lia)). lia.
    + apply IH; [done|]. simpl in Hij. lia.
Qed.

(** What the directory showed at the instants of the newest polls. *)
Lemma timed_steady size newer older i :
  timed g w initial_files start_time (newer ++ older) ->
  Forall (λ p, steady size (seen_by (poll_branch p))) newer ->
  (length older <= i < length (newer ++ older))%nat ->
  steady size (observe (w (tick g w initial_files start_time i)) initial_files).
Proof.
  induction newer as [|p newer IH]; intros Ht Hf Hi; simpl in *; [lia|].
  destruct Ht as (Hp & Hseen & _ & Ht). inversion Hf as [|? ? Hsp Hf']; subst.
  destruct (decide (i = length (newer ++ older))) as [->|Hne].
  - rewrite <- Hp, <- Hseen. done.
  - apply IH; try done. lia.
Qed.

End Ticks.

(** What the locals and the history of a call that returns [f] are like. *)
Lemma session_window g w start_time timeout names0 f :
  listing (w start_time) = Some names0 ->
  let r := get_downloaded_filename g w start_time timeout in
  outcome r = Return (Some f) ->
  finished_at r = tick g w (list_to_set names0) start_time (length (history r))
  /\ timed g w (list_to_set names0) start_time (history r)
  /\ well_recorded (history r)
  /\ exists since size,
       window_since since size (history r)
       /\ size_after (history r) = size
       /\ 0 < size
       /\ DOWNLOAD_STABILITY_TIME g <= finished_at r - since
       /\ observe (w (finished_at r)) (list_to_set names0) = SeenSize f size.
Proof.
  intros Hl r. subst r. rewrite (get_downloaded_filename_unfold _ _ _ _ _ Hl).
  apply (wait_loop_rule g w start_time timeout (list_to_set names0)
           (λ _ l, Inv w (list_to_set names0) l
                   /\ on_time g w (list_to_set names0) start_time l)
           (λ r, outcome r = Return (Some f) ->
                 finished_at r
                 = tick g w (list_to_set names0) start_time (length (history r))
                 /\ timed g w (list_to_set names0) start_time (history r)
                 /\ well_recorded (history r)
                 /\ exists since size,
                      window_since since size (history r)
                      /\ size_after (history r) = size
                      /\ 0 < size
                      /\ DOWNLOAD_STABILITY_TIME g <= finished_at r - since
                      /\ observe (w (finished_at r)) (list_to_set names0)
                         = SeenSize f size)).
  - intros _ l [HI [Hc Ht]] _.
    destruct (loop_body g w (list_to_set names0) l) as [l'|o l'] eqn:Hb.
    + split; [eapply loop_body_preserves; eauto|].
      eapply loop_body_on_time; eauto. by split.
    + simpl. intros ->.
      destruct (loop_body_returns_seen _ _ _ _ _ _ Hb)
        as (Hseen & Hpos & Hp & Hcl & since & Hst & Hlong).
      destruct HI as (_ & Hts & _ & Hsize & Hrec). unfold timer_sound in Hts.
      rewrite Hst in Hts. destruct Hts as (_ & _ & Hwin).
      rewrite Hp, Hcl. repeat split; try done.
      exists since, (last_size l). repeat split; done.
  - intros _ l _ _. unfold timed_out. destruct (listing (w (clock l))); done.
  - done.
  - split; [apply Inv_initial|]. by split.
Qed.

(** The stability window of a call that returns [f], read off the
    directory: the call ends at its poll number [n]; poll [m0] read the
    size that poll [n] reads from [f]; so did poll [m], at least the
    stability time before the end; and no poll from [m0] on found anything
    but that size or no size at all. *)
Lemma stability_window g w start_time timeout names0 f :
  listing (w start_time) = Some names0 ->
  let r := get_downloaded_filename g w start_time timeout in
  let T := tick g w (list_to_set names0) start_time in
  let n := length (history r) in
  outcome r = Return (Some f) ->
  finished_at r = T n
  /\ (forall i j, (i <= j <= n)%nat -> T i <= T j)
  /\ exists m0 m size c0 c1,
       (m0 < m < n)%nat
       /\ 0 < size
       /\ DOWNLOAD_STABILITY_TIME g <= T n - T m
       /\ observe (w (T m0)) (list_to_set names0) = SeenSize c0 size
       /\ observe (w (T m)) (list_to_set names0) = SeenSize c1 size
       /\ observe (w (T n)) (list_to_set names0) = SeenSize f size
       /\ forall i, (m0 <= i <= n)%nat ->
                    steady size (observe (w (T i)) (list_to_set names0)).
Proof.
  intros Hl r T n Ho.
  destruct (session_window _ _ _ _ _ _ Hl Ho)
    as (Hend & Ht & Hrec & since & size & Hwin & Hsize & Hpos & Hlong & Hseen).
  fold r in Hend, Ht, Hrec, Hwin, Hsize, Hlong, Hseen. fold n T in Hend.
  split; [done|]. split; [intros i j Hij; eapply timed_mono; eauto|].
  destruct Hwin as (window & f0 & older & Hh & Hq).
  rewrite Hh in Hsize, Hrec.
  rewrite (size_after_quiet _ _ _ Hq) in Hsize. simpl in Hsize.
  apply well_recorded_app in Hrec. destruct Hrec as [_ Hrec].
  destruct (size_after_recorded _ _ Hsize ltac:(lia) Hrec)
    as (mid & t0 & c0 & older' & -> & Hmid).
  set (p1 := {| poll_time := since; poll_branch := StableStart f0 size |}) in *.
  set (p0 := {| poll_time := t0; poll_branch := SizeChanged c0 size |}) in *.
  set (m0 := length older').
  set (m := length (mid ++ p0 :: older')).
  assert (Hm0 : (m0 < m)%nat) by (unfold m, m0; rewrite length_app; simpl; lia).
  assert (Hm : (m < n)%nat).
  { unfold n. rewrite Hh, length_app. simpl. fold m. lia. }
  rewrite Hh in Ht.
  pose proof (timed_app _ _ _ _ _ _ Ht) as Ht1.
  destruct Ht1 as (H1 & Hseen1 & _ & Ht1).
  pose proof (timed_app _ _ _ _ _ _ Ht1) as Ht0.
  destruct Ht0 as (H0 & Hseen0 & _ & _).
  simpl in H1, Hseen1, H0, Hseen0. fold m T in H1. fold m0 T in H0.
  exists m0, m, size, c0, f0.
  split; [lia|]. split; [done|].
  split; [rewrite <- H1, <- Hend; done|].
  split; [rewrite <- H0; done|].
  split; [rewrite <- H1; done|].
  split; [rewrite <- Hend; done|].
  intros i Hi.
  destruct (decide (i = n)) as [->|Hne].
  { rewrite <- Hend, Hseen. done. }
  apply (timed_steady g w (list_to_set names0) start_time size
           (window ++ p1 :: mid ++ [p0]) older').
  - rewrite <- !app_assoc. simpl. rewrite <- app_assoc. exact Ht.
  - apply Forall_app; split.
    + eapply Forall_impl; [exact Hq|]. intros p Hp. unfold quiet in Hp.
      destruct (poll_branch p); simpl; done.
    + constructor; [done|]. apply Forall_app; split; [done|].
      constructor; [done|constructor].
  - fold m0. split; [lia|].
    assert (length ((window ++ p1 :: mid ++ [p0]) ++ older') = n) as ->; [|lia].
    unfold n. rewrite Hh. f_equal.
    rewrite <- !app_assoc. simpl. rewrite <- app_assoc. done.
Qed.

(** ** Resets of the stability timer *)

(** A marker among the post-baseline entries is what [observe] reports as
    [SeenMarker]. *)
Lemma marker_seen_observe d initial_files :
  marker_seen d initial_files <-> observe d initial_files = SeenMarker.
Proof.
  unfold marker_seen, observe. split.
  - intros (names & m & -> & Hin & He).
    destruct (set_minus names initial_files) as [|x xs] eqn:Hn; [inversion Hin|].
    pose proof (proj2 (scan_downloading (x :: xs) None)
                  (ex_intro _ m (conj Hin He))) as Hs.
    destruct (scan (x :: xs) None) as [[dl p] a]. simpl in Hs. subst dl. done.
  - destruct (listing d) as [names|]; [|done].
    destruct (set_minus names initial_files) as [|x xs] eqn:Hn; [done|].
    destruct (scan (x :: xs) None) as [[dl p] a] eqn:Hs.
    destruct dl.
    + intros _.
      destruct (proj1 (scan_downloading (x :: xs) None)) as (m & Hin & He);
        [by rewrite Hs|].
      exists names, m. rewrite Hn. done.
    + repeat case_match; done.
Qed.

(** A size is read from a post-baseline entry without temporary suffix,
    and only when no marker is listed. *)
Lemma observe_size_reads d initial_files f s :
  observe d initial_files = SeenSize f s ->
  exists names n,
    listing d = Some names
    /\ f ∈ set_minus names initial_files
    /\ endswith f ".crdownload" = false
    /\ endswith f ".tmp" = false
    /\ path_exists d f = true
    /\ path_size d f = Some n
    /\ s = Z.of_N n
    /\ ~ marker_seen d initial_files.
Proof.
  intros Hseen.
  assert (Hno : ~ marker_seen d initial_files).
  { intros Hm. apply marker_seen_observe in Hm. congruence. }
  unfold observe in Hseen.
  destruct (listing d) as [names|] eqn:Hl; [|done].
  destruct (set_minus names initial_files) as [|x xs] eqn:Hn; [done|].
  destruct (scan (x :: xs) None) as [[dl p] a] eqn:Hs.
  destruct dl; [done|].
  destruct (truthy p) as [c|] eqn:Hp; [|done].
  apply truthy_Some in Hp as ->.
  destruct (path_exists d c) eqn:He; [|done].
  destruct (path_size d c) as [n|] eqn:Hsz; [|done].
  injection Hseen as -> <-.
  apply scan_potential in Hs as [?|(Hin & Hc & Htmp)]; [done|].
  exists names, n. rewrite Hn. done.
Qed.


(** An iteration that reads a size other than the recorded one records it
    and clears the timer. *)
Lemma loop_body_size_change g w initial_files l c s :
  observe (w (clock l)) initial_files = SeenSize c s ->
  s <> last_size l ->
  exists l',
    (loop_body g w initial_files l = Continue l'
     \/ loop_body g w initial_files l = Exit (Raise ValueError) l')
    /\ stable_time_start l' = None /\ last_size l' = s.
Proof.
  intros Hseen Hne. unfold observe in Hseen.
  unfold loop_body, sleep. cbv zeta.
  destruct (listing (w (clock l))) as [names|]; [|done].
  destruct (set_minus names initial_files) as [|x xs]; [done|].
  destruct (scan (x :: xs) None) as [[dl p] a].
  destruct dl; [done|].
  destruct (truthy p) as [f|]; [|done].
  destruct (path_exists (w (clock l)) f); [|done].
  destruct (path_size (w (clock l)) f) as [n|]; [|done].
  injection Hseen as -> <-.
  simpl. destruct (Z.eqb_spec (Z.of_N n) (last_size l)) as [?|_]; [done|]. simpl.
  destruct (DOWNLOAD_CHECK_INTERVAL g <? 0); eexists; (split; [eauto|done]).
Qed.

(** C5. A poll that reads a size other than the recorded one clears the
    stability timer and records the new size (or the sleep that follows
    raises, for a negative check interval).  Hence a call that returns a
    file does so at least the stability time after every poll that read a
    size other than the one read by the latest size-reading poll before
    it: a file that plateaus and then grows is not reported before the
    stability time has passed since the growth was seen. *)
Theorem size_change_restarts_the_window g w start_time timeout names0 :
  listing (w start_time) = Some names0 ->
  (forall l c s,
      observe (w (clock l)) (list_to_set names0) = SeenSize c s ->
      s <> last_size l ->
      exists l',
        (loop_body g w (list_to_set names0) l = Continue l'
         \/ loop_body g w (list_to_set names0) l = Exit (Raise ValueError) l')
        /\ stable_time_start l' = None /\ last_size l' = s)
  /\ (forall f,
        outcome (get_downloaded_filename g w start_time timeout) = Return (Some f) ->
        finished_at (get_downloaded_filename g w start_time timeout)
        = tick g w (list_to_set names0) start_time
               (length (history (get_downloaded_filename g w start_time timeout)))
        /\ forall (j i : nat) c1 s1 c2 s2,
             (j < i)%nat ->
             (i <= length (history (get_downloaded_filename g w start_time timeout)))%nat ->
             observe (w (tick g w (list_to_set names0) start_time j))
                     (list_to_set names0) = SeenSize c1 s1 ->
             observe (w (tick g w (list_to_set names0) start_time i))
                     (list_to_set names0) = SeenSize c2 s2 ->
             (forall k c s, (j < k < i)%nat ->
                observe (w (tick g w (list_to_set names0) start_time k))
                        (list_to_set names0) <> SeenSize c s) ->
             s1 <> s2 ->
             DOWNLOAD_STABILITY_TIME g
             <= finished_at (get_downloaded_filename g w start_time timeout)
                - tick g w (list_to_set names0) start_time i).
Proof.
  intros Hl. split; [intros l c s; apply loop_body_size_change|].
  intros f Ho.
  destruct (stability_window _ _ _ _ _ _ Hl Ho)
    as (Hend & Hmono & m0 & m & size & c0 & c1' & Hm & Hpos & Hlong & H0 & H1 & Hn & Hst).
  split; [done|].
  intros j i c1 s1 c2 s2 Hji Hin Hj Hi Hbetween Hne.
  rewrite Hend.
  assert (Him : (i <= m0)%nat).
  { destruct (decide (i <= m0)%nat) as [?|Hgt]; [done|]. exfalso.
    pose proof (Hst i ltac:(lia)) as Hsi. rewrite Hi in Hsi. simpl in Hsi.
    destruct (decide (m0 <= j)%nat) as [Hle|Hlt].
    - pose proof (Hst j ltac:(lia)) as Hsj. rewrite Hj in Hsj. simpl in Hsj.
      congruence.
    - apply (Hbetween m0 c0 size); [lia|done]. }
  pose proof (Hmono i m ltac:(lia)). lia.
Qed.

Lemma size_change_restarts_the_window_witness :
  (exists l',
     (loop_body source_globals w_grows (list_to_set ["old.txt"%string])
                {| clock := 3000; last_size := 500; stable_time_start := Some 2000;
                   polls := []; effects := [] |} = Continue l'
      \/ loop_body source_globals w_grows (list_to_set ["old.txt"%string])
                   {| clock := 3000; last_size := 500; stable_time_start := Some 2000;
                      polls := []; effects := [] |} = Exit (Raise ValueError) l')
     /\ stable_time_start l' = None /\ last_size l' = 800)
  /\ finished_at (get_downloaded_filename source_globals w_grows 0 20000)
     = tick source_globals w_grows (list_to_set ["old.txt"%string]) 0
            (length (history (get_downloaded_filename source_globals w_grows 0 20000)))
  /\ DOWNLOAD_STABILITY_TIME source_globals
     <= finished_at (get_downloaded_filename source_globals w_grows 0 20000)
        - tick source_globals w_grows (list_to_set ["old.txt"%string]) 0 3.
Proof.
  destruct (size_change_restarts_the_window source_globals w_grows 0 20000
              ["old.txt"%string] eq_refl) as [Hstep Hrun].
  split.
  - apply (Hstep {| clock := 3000; last_size := 500; stable_time_start := Some 2000;
                    polls := []; effects := [] |} "data.bin"%string 800).
    + vm_compute. reflexivity.
    + simpl. lia.
  - assert (Ho : outcome (get_downloaded_filename source_globals w_grows 0 20000)
                 = Return (Some "data.bin"%string)) by (vm_compute; reflexivity).
    destruct (Hrun _ Ho) as [Hend Hchange]. split; [exact Hend|].
    apply (Hchange 2%nat 3%nat "data.bin"%string 500 "data.bin"%string 800).
    + lia.
    + vm_compute. lia.
    + vm_compute. reflexivity.
    + vm_compute. reflexivity.
    + intros k c s Hk. lia.
    + lia.
Defined.

(** The session of [w_grows]: the size read at 3 s differs from the one
    recorded, the timer starts again at 4 s and the file is reported at
    7 s. *)
Example grown_file_session :
  outcome (get_downloaded_filename source_globals w_grows 0 20000)
  = Return (Some "data.bin"%string)
  /\ finished_at (get_downloaded_filename source_globals w_grows 0 20000) = 7000
  /\ rev (history (get_downloaded_filename source_globals w_grows 0 20000))
     = [ {| poll_time := 0; poll_branch := NoNewFiles |};
         {| poll_time := 1000; poll_branch := SizeChanged "data.bin" 500 |};
         {| poll_time := 2000; poll_branch := StableStart "data.bin" 500 |};
         {| poll_time := 3000; poll_branch := SizeChanged "data.bin" 800 |};
         {| poll_time := 4000; poll_branch := StableStart "data.bin" 800 |};
         {| poll_time := 5000; poll_branch := StableWait "data.bin" 800 |};
         {| poll_time := 6000; poll_branch := StableWait "data.bin" 800 |} ].
Proof. repeat split; vm_compute; reflexivity. Qed.



(** The session of [w_renamed]: markers at 2 s and 3 s, the final name read
    at 4 s, the timer started at 5 s, the file reported at 8 s. *)
Example renamed_file_session :
  outcome (get_downloaded_filename source_globals w_renamed 0 20000)
  = Return (Some "report.pdf"%string)
  /\ finished_at (get_downloaded_filename source_globals w_renamed 0 20000) = 8000
  /\ rev (history (get_downloaded_filename source_globals w_renamed 0 20000))
     = [ {| poll_time := 0; poll_branch := NoNewFiles |};
         {| poll_time := 1000; poll_branch := NoNewFiles |};
         {| poll_time := 2000; poll_branch := Downloading "report.pdf.crdownload" |};
         {| poll_time := 3000; poll_branch := Downloading "report.pdf.crdownload" |};
         {| poll_time := 4000; poll_branch := SizeChanged "report.pdf" 1024 |};
         {| poll_time := 5000; poll_branch := StableStart "report.pdf" 1024 |};
         {| poll_time := 6000; poll_branch := StableWait "report.pdf" 1024 |};
         {| poll_time := 7000; poll_branch := StableWait "report.pdf" 1024 |} ].
Proof. repeat split; vm_compute; reflexivity. Qed.


(** ** The check interval and the outcome *)

(** C8, as the code has it.  Stability is a difference of clock readings,
    not a number of samples: for every check interval, a call returns a
    file only at a poll that lies at least the stability time after the
    poll that started the timer, every poll in between having left the
    timer running on the same non-zero size, the size the returning poll
    samples as well.  The outcome itself does depend on the interval. *)
Theorem stability_is_wall_clock g w start_time timeout f :
  outcome (get_downloaded_filename g w start_time timeout) = Return (Some f) ->
  exists since size n,
    window_since since size (history (get_downloaded_filename g w start_time timeout))
    /\ DOWNLOAD_STABILITY_TIME g
       <= finished_at (get_downloaded_filename g w start_time timeout) - since
    /\ path_size (w (finished_at (get_downloaded_filename g w start_time timeout))) f
       = Some n
    /\ Z.of_N n = size
    /\ 0 < size.
Proof.
  intros Ho.
  destruct (completed_facts _ _ _ _ _ Ho)
    as (names0 & Hl & since & size & names & n & H).
  exists since, size, n. tauto.
Qed.

Lemma stability_is_wall_clock_witness :
  exists since size n,
    window_since since size
      (history (get_downloaded_filename slow_globals (w_arrives 1000) 0 10000))
    /\ DOWNLOAD_STABILITY_TIME slow_globals
       <= finished_at (get_downloaded_filename slow_globals (w_arrives 1000) 0 10000)
          - since
    /\ path_size (w_arrives 1000
         (finished_at (get_downloaded_filename slow_globals (w_arrives 1000) 0 10000)))
         "report.pdf" = Some n
    /\ Z.of_N n = size
    /\ 0 < size.
Proof.
  apply (stability_is_wall_clock slow_globals (w_arrives 1000) 0 10000).
  vm_compute. reflexivity.
Defined.

(** C8 as stated fails.  The same directory history, the same timeout and
    stability time: with a check interval of 1 s the call returns the file,
    with one of 2 s it times out. *)
Lemma outcome_depends_on_check_interval :
  DOWNLOAD_STABILITY_TIME source_globals = DOWNLOAD_STABILITY_TIME slow_globals
  /\ 0 < DOWNLOAD_CHECK_INTERVAL source_globals
  /\ 0 < DOWNLOAD_CHECK_INTERVAL slow_globals
  /\ outcome (get_downloaded_filename source_globals (w_arrives 1000) 0 6000)
     = Return (Some "report.pdf"%string)
  /\ outcome (get_downloaded_filename slow_globals (w_arrives 1000) 0 6000)
     = Return None.
Proof. repeat split; vm_compute; reflexivity. Qed.

(** ** File-system calls of a session *)

Lemma set_minus_baseline names names0 :
  names ⊆ names0 -> set_minus names (list_to_set names0) = [].
Proof.
  intros Hsub. unfold set_minus.
  assert (Hall : forall x, x ∈ remove_dups names ->
                           x ∈ (list_to_set names0 : gset string)).
  { intros x Hx. apply elem_of_list_to_set, Hsub. by apply elem_of_remove_dups. }
  induction (remove_dups names) as [|x xs IH]; [done|].
  rewrite filter_cons. destruct (decide (x ∉ list_to_set names0)) as [Hn|_].
  - exfalso. apply Hn, Hall. left.
  - apply IH. intros y Hy. apply Hall. by right.
Qed.

(** C2, as the code has it.  [get_downloaded_filename] validates none of
    its parameters.  Called with a timeout that is not positive it takes
    the baseline snapshot, never enters the polling loop, lists the
    directory once more for the cleanup and returns None. *)
Theorem nonpositive_timeout_is_not_rejected g w start_time timeout names0 :
  timeout <= 0 ->
  listing (w start_time) = Some names0 ->
  get_downloaded_filename g w start_time timeout
  = {| outcome := Return None; finished_at := start_time; history := [];
       trace := [Listed start_time true; Listed start_time true] |}.
Proof.
  intros Ht Hl. rewrite (get_downloaded_filename_unfold _ _ _ _ _ Hl).
  unfold iterations. rewrite Nat.add_comm. simpl.
  destruct (Z.ltb_spec (start_time - start_time) timeout) as [?|_]; [lia|].
  unfold timed_out. simpl. rewrite Hl.
  by rewrite set_minus_baseline.
Qed.

Lemma nonpositive_timeout_is_not_rejected_witness :
  get_downloaded_filename source_globals (w_arrives 1000) 0 (-5)
  = {| outcome := Return None; finished_at := 0; history := [];
       trace := [Listed 0 true; Listed 0 true] |}.
Proof.
  apply (nonpositive_timeout_is_not_rejected source_globals (w_arrives 1000) 0 (-5)
           ["old.txt"%string]).
  - lia.
  - reflexivity.
Defined.

(** C2 as stated fails: no call ends in a configuration error.  A timeout
    of zero, and a timeout below the stability time, are both accepted; the
    directory is listed and None is returned. *)
Lemma bad_timeout_is_accepted :
  outcome (get_downloaded_filename source_globals w_idle 0 0) = Return None
  /\ trace (get_downloaded_filename source_globals w_idle 0 0)
     = [Listed 0 true; Listed 0 true]
  /\ 2000 <= DOWNLOAD_STABILITY_TIME source_globals
  /\ outcome (get_downloaded_filename source_globals w_idle 0 2000) = Return None
  /\ history (get_downloaded_filename source_globals w_idle 0 2000)
     = [ {| poll_time := 1000; poll_branch := NoNewFiles |};
         {| poll_time := 0; poll_branch := NoNewFiles |} ].
Proof. repeat split; vm_compute; try reflexivity. discriminate. Qed.

(** C3, as the code has it.  When the directory is gone at the moment the
    call ends, the call has returned None, the value it also returns on a
    timeout, and not an exception; the failed listing is its last
    file-system call, every call before it was a successful listing:
    nothing is retried and nothing is removed. *)
Theorem vanished_directory_returns_None g w start_time timeout :
  DOWNLOAD_CHECK_INTERVAL g <> 0 ->
  listing (w start_time) <> None ->
  listing (w (finished_at (get_downloaded_filename g w start_time timeout))) = None ->
  outcome (get_downloaded_filename g w start_time timeout) = Return None
  /\ exists es,
       trace (get_downloaded_filename g w start_time timeout)
       = Listed (finished_at (get_downloaded_filename g w start_time timeout)) false
         :: es
       /\ Forall is_good_listing es.
Proof.
  intros Hi Hl. destruct (listing (w start_time)) as [names0|] eqn:Hl0; [|done].
  rewrite (get_downloaded_filename_unfold _ _ _ _ _ Hl0).
  apply (wait_loop_rule g w start_time timeout (list_to_set names0)
           (λ n l, enough g start_time timeout n l
                   /\ Forall is_good_listing (effects l))
           (λ r, listing (w (finished_at r)) = None ->
                 outcome r = Return None
                 /\ exists es, trace r = Listed (finished_at r) false :: es
                               /\ Forall is_good_listing es)).
  - intros n l [He Hf] Hlt.
    destruct (loop_body g w (list_to_set names0) l) as [l'|o l'] eqn:Hb.
    + split; [eapply enough_step; eauto|].
      rewrite (loop_body_continue_effects _ _ _ _ _ Hb).
      constructor; [by eexists|done].
    + simpl. intros Hgone.
      destruct (loop_body_exit_effects _ _ _ _ _ _ Hb)
        as [Hc [(-> & _ & ->)|(_ & Hsome & _)]].
      * rewrite Hc. eauto.
      * rewrite Hc in Hgone. done.
  - intros n l [_ Hf] _. unfold timed_out.
    destruct (listing (w (clock l))) eqn:Hnow; simpl.
    + intros Hgone. rewrite Hnow in Hgone. done.
    + eauto.
  - intros l [[He _] _]. lia.
  - split; [by apply enough_iterations|].
    simpl. constructor; [by eexists|done].
Qed.

Lemma vanished_directory_returns_None_witness :
  outcome (get_downloaded_filename source_globals w_vanishes 0 10000) = Return None
  /\ exists es,
       trace (get_downloaded_filename source_globals w_vanishes 0 10000)
       = Listed (finished_at (get_downloaded_filename source_globals w_vanishes 0 10000))
                false :: es
       /\ Forall is_good_listing es.
Proof.
  apply (vanished_directory_returns_None source_globals w_vanishes 0 10000).
  - vm_compute. discriminate.
  - vm_compute. discriminate.
  - vm_compute. reflexivity.
Defined.

(** C3 as stated fails.  The directory is there at the baseline and gone
    from 2 s on; the call raises nothing: it returns None, exactly the
    outcome of a session that timed out with the directory in place. *)
Lemma vanished_directory_is_not_an_error :
  listing (w_vanishes 0) = Some ["old.txt"%string]
  /\ listing (w_vanishes 2000) = None
  /\ finished_at (get_downloaded_filename source_globals w_vanishes 0 10000) = 2000
  /\ outcome (get_downloaded_filename source_globals w_vanishes 0 10000) = Return None
  /\ outcome (get_downloaded_filename source_globals w_vanishes 0 10000)
     = outcome (get_downloaded_filename source_globals w_idle 0 10000).
Proof. repeat split; vm_compute; reflexivity. Qed.

(** A call does not end before the iteration it is in began. *)
Lemma wait_loop_finishes_later g w start_time timeout initial_files fuel l :
  clock l <= finished_at (wait_loop g w start_time timeout initial_files fuel l).
Proof.
  apply (wait_loop_rule g w start_time timeout initial_files
           (λ _ l', clock l <= clock l') (λ r, clock l <= finished_at r)).
  - intros _ l' Hle _.
    destruct (loop_body g w initial_files l') as [l''|o l''] eqn:Hb.
    + destruct (loop_body_step _ _ _ _ _ Hb) as [[[? ->]| ->] _]; lia.
    + destruct (loop_body_exit_effects _ _ _ _ _ _ Hb) as [Hc _].
      simpl. rewrite Hc. done.
  - intros _ l' Hle _. unfold timed_out. destruct (listing (w (clock l'))); done.
  - done.
  - done.
Qed.

(** The loop on a directory that shows nothing new until the call ends. *)
Lemma wait_loop_nothing_new g w start_time timeout names0 fuel l :
  0 < DOWNLOAD_CHECK_INTERVAL g ->
  enough g start_time timeout fuel l ->
  Forall is_listing (effects l) ->
  Forall (λ p, poll_branch p = NoNewFiles) (polls l) ->
  (forall t, clock l <= t ->
             t <= finished_at (wait_loop g w start_time timeout (list_to_set names0)
                                         fuel l) ->
             exists names, listing (w t) = Some names /\ names ⊆ names0) ->
  let r := wait_loop g w start_time timeout (list_to_set names0) fuel l in
  outcome r = Return None
  /\ timeout <= finished_at r - start_time
  /\ Forall is_listing (trace r)
  /\ Forall (λ p, poll_branch p = NoNewFiles) (history r).
Proof.
  intros Hi. revert l. induction fuel as [|n IH]; intros l He Hf Hp Hquiet r.
  { destruct He. lia. }
  destruct (Hquiet (clock l)) as (names & Hnow & Hsub);
    [lia|apply wait_loop_finishes_later|].
  pose proof (set_minus_baseline _ _ Hsub) as Hnone.
  subst r. revert Hquiet. simpl.
  destruct (Z.ltb_spec (clock l - start_time) timeout) as [Hlt|Hge].
  - assert (Hb : loop_body g w (list_to_set names0) l
                 = Continue
                     {| clock := clock l + DOWNLOAD_CHECK_INTERVAL g
                                 + Z.of_N (delay (w (clock l)));
                        last_size := last_size l;
                        stable_time_start := stable_time_start l;
                        polls := {| poll_time := clock l; poll_branch := NoNewFiles |}
                                 :: polls l;
                        effects := Listed (clock l) true :: effects l |}).
    { unfold loop_body, sleep. cbv zeta. rewrite Hnow, Hnone.
      destruct (Z.ltb_spec (DOWNLOAD_CHECK_INTERVAL g) 0); [lia|done]. }
    rewrite Hb. intros Hquiet. apply IH.
    + eapply enough_step; eauto. lia.
    + simpl. constructor; [by do 2 eexists|done].
    + simpl. by constructor.
    + simpl. intros t Ht. apply Hquiet. lia.
  - intros _. unfold timed_out. rewrite Hnow, Hnone. simpl.
    repeat split; try done. constructor; [by do 2 eexists|done].
Qed.

(** C6, as the code has it.  If the directory holds no entry that the
    baseline snapshot lacks at any time from the start of the call until
    it ends, the call runs for the whole timeout and returns None; every
    poll found nothing new, and there is no removal among its file-system
    calls.  The call ends after the timeout has elapsed, by up to one
    sleep: the directory has to stay as it is until then. *)
Theorem no_new_entry_times_out g w start_time timeout names0 :
  0 < DOWNLOAD_CHECK_INTERVAL g ->
  listing (w start_time) = Some names0 ->
  (forall t, start_time <= t ->
             t <= finished_at (get_downloaded_filename g w start_time timeout) ->
             exists names, listing (w t) = Some names /\ names ⊆ names0) ->
  outcome (get_downloaded_filename g w start_time timeout) = Return None
  /\ timeout <= finished_at (get_downloaded_filename g w start_time timeout) - start_time
  /\ Forall is_listing (trace (get_downloaded_filename g w start_time timeout))
  /\ Forall (λ p, poll_branch p = NoNewFiles)
            (history (get_downloaded_filename g w start_time timeout)).
Proof.
  intros Hi Hl. rewrite (get_downloaded_filename_unfold _ _ _ _ _ Hl).
  intros Hquiet. apply wait_loop_nothing_new; [done| | | |done].
  - by apply enough_iterations.
  - simpl. constructor; [by do 2 eexists|done].
  - simpl. constructor.
Qed.

Lemma no_new_entry_times_out_witness :
  outcome (get_downloaded_filename source_globals w_idle 0 10000) = Return None
  /\ 10000 <= finished_at (get_downloaded_filename source_globals w_idle 0 10000) - 0
  /\ Forall is_listing (trace (get_downloaded_filename source_globals w_idle 0 10000))
  /\ Forall (λ p, poll_branch p = NoNewFiles)
            (history (get_downloaded_filename source_globals w_idle 0 10000)).
Proof.
  apply (no_new_entry_times_out source_globals w_idle 0 10000 ["old.txt"%string]).
  - reflexivity.
  - reflexivity.
  - intros t _ _. exists ["old.txt"%string]. split; [reflexivity|]. done.
Defined.

(** C6 as stated fails.  With the source's check interval and a timeout of
    9.5 s, no new entry appears before the timeout has elapsed; a marker
    appears at 9.6 s.  The poll of 9 s is the last, the loop is left at
    10 s, and the cleanup removes the marker. *)
Lemma late_marker_is_removed :
  (forall t, t < 0 + 9500 -> listing (w_late_marker t) = Some ["old.txt"%string])
  /\ outcome (get_downloaded_filename source_globals w_late_marker 0 9500)
     = Return None
  /\ finished_at (get_downloaded_filename source_globals w_late_marker 0 9500) = 10000
  /\ listing (w_late_marker 10000) = Some ["old.txt"; "late.bin.crdownload"]%string
  /\ trace (get_downloaded_filename source_globals w_late_marker 0 9500) !! 0%nat
     = Some (Removed 10000 "late.bin.crdownload" true).
Proof.
  split; [|repeat split; vm_compute; reflexivity].
  intros t Ht. unfold w_late_marker. destruct (Z.ltb_spec t 9600); [|lia].
  reflexivity.
Qed.

(** ** The cleanup after a timeout *)

Lemma unlink_sizes_readable x d : sizes_readable d -> sizes_readable (unlink x d).
Proof.
  intros Hr y. unfold unlink. simpl. destruct (decide (y = x)); [done|apply Hr].
Qed.

Lemma unlink_no_valid_file x d y : no_valid_file d y -> no_valid_file (unlink x d) y.
Proof.
  unfold no_valid_file, unlink. simpl.
  destruct (decide (y = x)); [by left|done].
Qed.

Lemma unlink_valid_file x d y : y <> x -> valid_file d y -> valid_file (unlink x d) y.
Proof.
  unfold valid_file, unlink. simpl. intros Hne.
  destruct (decide (y = x)); done.
Qed.

Lemma cleanup_loop_extends t ms d es e :
  e ∈ es -> e ∈ cleanup_loop t ms d es.
Proof.
  revert d es. induction ms as [|x ms IH]; intros d es He; simpl; [done|].
  repeat case_match; try done; apply IH; try done; by right.
Qed.

Lemma cleanup_loop_removes t ms d es m :
  sizes_readable d ->
  m ∈ ms -> endswith m ".crdownload" = true ->
  no_valid_file d (fst (splitext m)) ->
  exists ok, Removed t m ok ∈ cleanup_loop t ms d es.
Proof.
  revert d es. induction ms as [|x ms IH]; intros d es Hr Hm He Hno.
  { inversion Hm. }
  apply elem_of_cons in Hm as [<-|Hm].
  - simpl. rewrite He.
    assert ((if path_exists d (splitext m).1
             then match path_size d (splitext m).1 with
                  | Some n => Some (0 <? Z.of_N n)
                  | None => None
                  end
             else Some false) = Some false) as ->.
    { destruct Hno as [->| Hz]; [done|]. rewrite Hz. simpl.
      by destruct (path_exists d (splitext m).1). }
    destruct (remove_fails d m); eexists;
      apply cleanup_loop_extends; left.
  - simpl. destruct (endswith x ".crdownload"); [|by apply IH].
    destruct (path_exists d (splitext x).1) eqn:Hex.
    + destruct (path_size d (splitext x).1) as [n|] eqn:Hsz.
      * destruct (0 <? Z.of_N n); [by apply IH|].
        destruct (remove_fails d x); [by apply IH|].
        apply IH; auto using unlink_sizes_readable, unlink_no_valid_file.
      * by destruct (Hr _ Hex).
    + destruct (remove_fails d x); [by apply IH|].
      apply IH; auto using unlink_sizes_readable, unlink_no_valid_file.
Qed.

Lemma cleanup_loop_keeps t ms d es m :
  endswith (fst (splitext m)) ".crdownload" = false ->
  valid_file d (fst (splitext m)) ->
  (forall t' ok, Removed t' m ok ∉ es) ->
  forall t' ok, Removed t' m ok ∉ cleanup_loop t ms d es.
Proof.
  intros Hfinal. revert d es.
  induction ms as [|x ms IH]; intros d es Hv Hes; simpl; [done|].
  destruct (endswith x ".crdownload") eqn:Hx; [|by apply IH].
  assert (Hne : (splitext m).1 <> x)
    by (intros Heq; rewrite Heq in Hfinal; congruence).
  assert (Hes' : forall b t' ok, x <> m -> Removed t' m ok ∉ Removed t x b :: es).
  { intros b t' ok Hxm Hin. apply elem_of_cons in Hin as [[=]|Hin]; [done|].
    by apply (Hes t' ok). }
  destruct (decide (x = m)) as [->|Hxm].
  - destruct Hv as (Hex & n & Hsz & Hn). rewrite Hex, Hsz.
    destruct (Z.ltb_spec 0 (Z.of_N n)); [|lia].
    apply IH; [by split; eauto|done].
  - destruct (path_exists d (splitext x).1).
    + destruct (path_size d (splitext x).1) as [n|]; [|done].
      destruct (0 <? Z.of_N n); [by apply IH|].
      destruct (remove_fails d x); apply IH; auto using unlink_valid_file.
    + destruct (remove_fails d x); apply IH; auto using unlink_valid_file.
Qed.

(** What a call that ran out of time did: nothing but listings up to the
    timeout, then the cleanup on the directory as it was at that instant. *)
Lemma timed_out_trace g w start_time timeout names0 names :
  listing (w start_time) = Some names0 ->
  let r := get_downloaded_filename g w start_time timeout in
  timeout <= finished_at r - start_time ->
  outcome r = Return None ->
  listing (w (finished_at r)) = Some names ->
  exists es,
    Forall is_listing es
    /\ trace r = cleanup_loop (finished_at r) (set_minus names (list_to_set names0))
                              (w (finished_at r)) es.
Proof.
  intros Hl r. subst r. rewrite (get_downloaded_filename_unfold _ _ _ _ _ Hl).
  apply (wait_loop_rule g w start_time timeout (list_to_set names0)
           (λ _ l, Forall is_listing (effects l))
           (λ r, timeout <= finished_at r - start_time ->
                 outcome r = Return None ->
                 listing (w (finished_at r)) = Some names ->
                 exists es, Forall is_listing es
                   /\ trace r = cleanup_loop (finished_at r)
                                  (set_minus names (list_to_set names0))
                                  (w (finished_at r)) es)).
  - intros _ l Hf Hlt.
    destruct (loop_body g w (list_to_set names0) l) as [l'|o l'] eqn:Hb.
    + rewrite (loop_body_continue_effects _ _ _ _ _ Hb).
      constructor; [by do 2 eexists|done].
    + destruct (loop_body_exit_effects _ _ _ _ _ _ Hb) as [Hc _].
      simpl. rewrite Hc. lia.
  - intros _ l Hf _ _ _. unfold timed_out.
    destruct (listing (w (clock l))) eqn:Hnow; simpl; rewrite Hnow; [|done].
    intros [= ->]. eexists. split; [|done].
    constructor; [by do 2 eexists|done].
  - done.
  - simpl. constructor; [by do 2 eexists|done].
Qed.

(** C7, as the code has it.  After a timeout, with the directory still
    listable: a post-baseline entry ending in ".crdownload" whose final
    sibling (its [os.path.splitext] root) is absent or empty gets an
    [os.remove] call, whether or not that call succeeds, provided every
    size query on an existing entry answers; and an entry whose final
    sibling exists, is not empty and is not itself such a marker is never
    removed. *)
Theorem cleanup_after_timeout g w start_time timeout names0 names m :
  listing (w start_time) = Some names0 ->
  timeout <= finished_at (get_downloaded_filename g w start_time timeout) - start_time ->
  outcome (get_downloaded_filename g w start_time timeout) = Return None ->
  listing (w (finished_at (get_downloaded_filename g w start_time timeout)))
  = Some names ->
  m ∈ set_minus names (list_to_set names0) ->
  endswith m ".crdownload" = true ->
  (sizes_readable (w (finished_at (get_downloaded_filename g w start_time timeout))) ->
   no_valid_file (w (finished_at (get_downloaded_filename g w start_time timeout)))
                 (fst (splitext m)) ->
   exists ok,
     Removed (finished_at (get_downloaded_filename g w start_time timeout)) m ok
     ∈ trace (get_downloaded_filename g w start_time timeout))
  /\ (endswith (fst (splitext m)) ".crdownload" = false ->
      valid_file (w (finished_at (get_downloaded_filename g w start_time timeout)))
                 (fst (splitext m)) ->
      forall t ok,
        Removed t m ok ∉ trace (get_downloaded_filename g w start_time timeout)).
Proof.
  intros Hl Ht Ho Hnow Hm He.
  destruct (timed_out_trace g w start_time timeout names0 names Hl Ht Ho Hnow)
    as (es & Hes & ->).
  split.
  - intros Hr Hno. by apply cleanup_loop_removes.
  - intros Hfinal Hv. apply cleanup_loop_keeps; try done.
    intros t' ok Hin. rewrite Forall_forall in Hes.
    destruct (Hes _ Hin) as (? & ? & [=]).
Qed.

Lemma dir_sizes_readable files : sizes_readable (dir files).
Proof.
  intros x Hx. simpl in *. apply bool_decide_eq_true in Hx.
  apply list_elem_of_fmap in Hx as (y & -> & Hin).
  destruct (list_find (λ p, p.1 = y.1) files) eqn:Hf; [done|].
  apply list_find_None in Hf. rewrite Forall_forall in Hf.
  exfalso. by apply (Hf _ Hin).
Qed.

Lemma cleanup_after_timeout_witness :
  (exists ok,
     Removed (finished_at (get_downloaded_filename source_globals w_leftover 0 3000))
             "b.bin.crdownload" ok
     ∈ trace (get_downloaded_filename source_globals w_leftover 0 3000))
  /\ (forall t ok,
        Removed t "a.bin.crdownload" ok
        ∉ trace (get_downloaded_filename source_globals w_leftover 0 3000)).
Proof.
  assert (Hnew : set_minus
                   ["old.txt"; "a.bin"; "a.bin.crdownload"; "b.bin.crdownload"]%string
                   (list_to_set ["old.txt"%string])
                 = ["a.bin"; "a.bin.crdownload"; "b.bin.crdownload"]%string)
    by (vm_compute; reflexivity).
  assert (Hend : finished_at (get_downloaded_filename source_globals w_leftover 0 3000)
                 = 3000) by (vm_compute; reflexivity).
  split.
  - refine (proj1 (cleanup_after_timeout source_globals w_leftover 0 3000
                     ["old.txt"%string]
                     ["old.txt"; "a.bin"; "a.bin.crdownload"; "b.bin.crdownload"]%string
                     "b.bin.crdownload" _ _ _ _ _ _) _ _).
    + reflexivity.
    + rewrite Hend. lia.
    + vm_compute. reflexivity.
    + rewrite Hend. reflexivity.
    + rewrite Hnew. do 2 right. left.
    + vm_compute. reflexivity.
    + rewrite Hend. apply dir_sizes_readable.
    + rewrite Hend. left. vm_compute. reflexivity.
  - refine (proj2 (cleanup_after_timeout source_globals w_leftover 0 3000
                     ["old.txt"%string]
                     ["old.txt"; "a.bin"; "a.bin.crdownload"; "b.bin.crdownload"]%string
                     "a.bin.crdownload" _ _ _ _ _ _) _ _).
    + reflexivity.
    + rewrite Hend. lia.
    + vm_compute. reflexivity.
    + rewrite Hend. reflexivity.
    + rewrite Hnew. right. left.
    + vm_compute. reflexivity.
    + vm_compute. reflexivity.
    + rewrite Hend. split; [vm_compute; reflexivity|].
      exists 10%N. split; [vm_compute; reflexivity|lia].
Defined.

(** The session of [w_leftover]: the marker without a final file is
    removed, the marker next to its complete file is kept. *)
Example leftover_session :
  trace (get_downloaded_filename source_globals w_leftover 0 3000)
  = [Removed 3000 "b.bin.crdownload" true; Listed 3000 true; Listed 2000 true;
     Listed 1000 true; Listed 0 true; Listed 0 true].
Proof. vm_compute. reflexivity. Qed.

(** C7 as stated fails.  At the timeout two markers are left; the final
    file of "a.bin.crdownload" exists but its size query raises, which ends
    the cleanup: "b.bin.crdownload", whose final file is absent, is not
    removed, and the call returns None all the same. *)
Lemma leftover_marker_is_not_removed :
  outcome (get_downloaded_filename source_globals w_stuck 0 3000) = Return None
  /\ finished_at (get_downloaded_filename source_globals w_stuck 0 3000) = 3000
  /\ listing (w_stuck 3000)
     = Some ["old.txt"; "a.bin"; "a.bin.crdownload"; "b.bin.crdownload"]%string
  /\ endswith "b.bin.crdownload" ".crdownload" = true
  /\ splitext "b.bin.crdownload" = ("b.bin"%string, ".crdownload"%string)
  /\ path_exists (w_stuck 3000) "b.bin" = false
  /\ trace (get_downloaded_filename source_globals w_stuck 0 3000)
     = [Listed 3000 true; Listed 2000 true; Listed 1000 true; Listed 0 true;
        Listed 0 true].
Proof. repeat split; vm_compute; reflexivity. Qed.

(** ** Liveness: a file that settles early enough is reported *)

Section Liveness.

Variables (g : Globals) (w : World) (names0 : list string).
Variables (f : string) (size : N).

Hypothesis interval_pos : 0 < DOWNLOAD_CHECK_INTERVAL g.
Hypothesis f_named : f <> EmptyString.
Hypothesis f_final : endswith f ".crdownload" = false.
Hypothesis f_not_tmp : endswith f ".tmp" = false.






End Liveness.



(** The session of the witness: every sleep takes 1 ms more than asked. *)
Example lagging_session :
  finished_at (get_downloaded_filename source_globals (lagging 1 w_renamed) 0 10000)
  = 8008
  /\ rev (history (get_downloaded_filename source_globals (lagging 1 w_renamed) 0 10000))
     = [ {| poll_time := 0; poll_branch := NoNewFiles |};
         {| poll_time := 1001; poll_branch := NoNewFiles |};
         {| poll_time := 2002; poll_branch := Downloading "report.pdf.crdownload" |};
         {| poll_time := 3003; poll_branch := Downloading "report.pdf.crdownload" |};
         {| poll_time := 4004; poll_branch := SizeChanged "report.pdf" 1024 |};
         {| poll_time := 5005; poll_branch := StableStart "report.pdf" 1024 |};
         {| poll_time := 6006; poll_branch := StableWait "report.pdf" 1024 |};
         {| poll_time := 7007; poll_branch := StableWait "report.pdf" 1024 |} ].
Proof. split; vm_compute; reflexivity. Qed.


(** ** Further properties of [get_downloaded_filename] *)

Lemma set_minus_elem names names0 f :
  f ∈ set_minus names (list_to_set names0) -> f ∈ names /\ (f ∉ names0).
Proof.
  unfold set_minus. intros Hin. apply list_elem_of_filter in Hin as [Hnot Hin].
  split; [by apply elem_of_remove_dups|].
  intros Hf. apply Hnot. by apply elem_of_list_to_set.
Qed.

Lemma loop_body_exit_polls g w initial_files l o l' :
  0 <= DOWNLOAD_CHECK_INTERVAL g ->
  loop_body g w initial_files l = Exit o l' -> polls l' = polls l.
Proof. intros Hi Hb. body_paths; lia. Qed.

Lemma loop_body_returns_existing g w initial_files l f l' :
  loop_body g w initial_files l = Exit (Return (Some f)) l' ->
  path_exists (w (clock l)) f = true.
Proof. intros Hb. body_paths. Qed.

Lemma cleanup_loop_removed t ms d es e :
  e ∈ cleanup_loop t ms d es ->
  e ∈ es
  \/ exists f ok, e = Removed t f ok /\ f ∈ ms /\ endswith f ".crdownload" = true.
Proof.
  revert d es. induction ms as [|x ms IH]; intros d es He; simpl in He; [by left|].
  assert (Hrest : forall d' es',
             e ∈ cleanup_loop t ms d' es' ->
             (e ∈ es' -> e ∈ es
                \/ exists f ok, e = Removed t f ok /\ f ∈ x :: ms
                                /\ endswith f ".crdownload" = true) ->
             e ∈ es
             \/ exists f ok, e = Removed t f ok /\ f ∈ x :: ms
                             /\ endswith f ".crdownload" = true).
  { intros d' es' Hin Hes'. destruct (IH _ _ Hin) as [?|(f & ok & ? & ? & ?)]; [auto|].
    right. exists f, ok. repeat split; try done. by right. }
  destruct (endswith x ".crdownload") eqn:Hx; [|eapply Hrest; eauto].
  assert (Hnew : forall b, e ∈ Removed t x b :: es ->
             e ∈ es
             \/ exists f ok, e = Removed t f ok /\ f ∈ x :: ms
                             /\ endswith f ".crdownload" = true).
  { intros b Hin. apply elem_of_cons in Hin as [->|Hin]; [|by left].
    right. exists x, b. repeat split; try done. left. }
  repeat case_match; try (by left); eapply Hrest; eauto.
Qed.

(** X1. The only entries [get_downloaded_filename] ever removes are
    removed by the cleanup of a timed-out call, at the moment it ends: each
    is an entry of the directory at that moment that ends in ".crdownload"
    and was not in the baseline snapshot. *)
Theorem removal_only_of_new_markers g w start_time timeout names0 t f ok :
  listing (w start_time) = Some names0 ->
  Removed t f ok ∈ trace (get_downloaded_filename g w start_time timeout) ->
  t = finished_at (get_downloaded_filename g w start_time timeout)
  /\ timeout <= t - start_time
  /\ outcome (get_downloaded_filename g w start_time timeout) = Return None
  /\ endswith f ".crdownload" = true
  /\ (f ∉ names0)
  /\ exists names, listing (w t) = Some names /\ f ∈ names.
Proof.
  intros Hl. rewrite (get_downloaded_filename_unfold _ _ _ _ _ Hl).
  apply (wait_loop_rule g w start_time timeout (list_to_set names0)
           (λ _ l, Forall is_listing (effects l))
           (λ r, Removed t f ok ∈ trace r ->
                 t = finished_at r /\ timeout <= t - start_time
                 /\ outcome r = Return None
                 /\ endswith f ".crdownload" = true /\ (f ∉ names0)
                 /\ exists names, listing (w t) = Some names /\ f ∈ names)).
  - intros _ l Hf _.
    destruct (loop_body g w (list_to_set names0) l) as [l'|o l'] eqn:Hb.
    + rewrite (loop_body_continue_effects _ _ _ _ _ Hb).
      constructor; [by do 2 eexists|done].
    + simpl. intros Hin. exfalso.
      assert (Forall is_listing (effects l')) as Hf'.
      { destruct (loop_body_exit_effects _ _ _ _ _ _ Hb)
          as [_ [(_ & _ & ->)|(_ & _ & ->)]];
          (constructor; [by do 2 eexists|done]). }
      rewrite Forall_forall in Hf'. destruct (Hf' _ Hin) as (? & ? & [=]).
  - intros _ l Hf Hge. unfold timed_out.
    destruct (listing (w (clock l))) as [names|] eqn:Hnow; simpl.
    + intros Hin. apply cleanup_loop_removed in Hin as [Hin|Hin].
      * exfalso. apply elem_of_cons in Hin as [[=]|Hin].
        rewrite Forall_forall in Hf. destruct (Hf _ Hin) as (? & ? & [=]).
      * destruct Hin as (f' & ok' & [= -> -> ->] & Hin & He).
        apply set_minus_elem in Hin as [Hin Hnot].
        repeat split; try done; try lia. eauto.
    + intros Hin. exfalso. apply elem_of_cons in Hin as [[=]|Hin].
      rewrite Forall_forall in Hf. destruct (Hf _ Hin) as (? & ? & [=]).
  - simpl. intros l Hf Hin. exfalso.
    rewrite Forall_forall in Hf. destruct (Hf _ Hin) as (? & ? & [=]).
  - simpl. constructor; [by do 2 eexists|done].
Qed.

Lemma removal_only_of_new_markers_witness :
  3000 = finished_at (get_downloaded_filename source_globals w_leftover 0 3000)
  /\ 3000 <= 3000 - 0
  /\ outcome (get_downloaded_filename source_globals w_leftover 0 3000) = Return None
  /\ endswith "b.bin.crdownload" ".crdownload" = true
  /\ ("b.bin.crdownload"%string ∉ ["old.txt"%string])
  /\ exists names, listing (w_leftover 3000) = Some names
                   /\ "b.bin.crdownload"%string ∈ names.
Proof.
  apply (removal_only_of_new_markers source_globals w_leftover 0 3000
           ["old.txt"%string] 3000 "b.bin.crdownload" true).
  - reflexivity.
  - assert (trace (get_downloaded_filename source_globals w_leftover 0 3000) !! 0%nat
            = Some (Removed 3000 "b.bin.crdownload" true)) as H
      by (vm_compute; reflexivity).
    exact (list_elem_of_lookup_2 _ _ _ H).
Defined.

(** X2. A call that returns a file name has done nothing but list the
    directory (it removes nothing), returns while the timeout has not
    elapsed, and the file it names is listed and exists at that moment. *)
Theorem completion_reads_only g w start_time timeout f :
  outcome (get_downloaded_filename g w start_time timeout) = Return (Some f) ->
  Forall is_listing (trace (get_downloaded_filename g w start_time timeout))
  /\ finished_at (get_downloaded_filename g w start_time timeout) - start_time
     < timeout
  /\ path_exists (w (finished_at (get_downloaded_filename g w start_time timeout))) f
     = true
  /\ exists names,
       listing (w (finished_at (get_downloaded_filename g w start_time timeout)))
       = Some names
       /\ f ∈ names.
Proof.
  intros Ho.
  destruct (completed_facts _ _ _ _ _ Ho)
    as (names0 & Hl & since & size & names & n & Hc).
  destruct Hc as (_ & _ & _ & _ & _ & Hnow & Hin & _).
  apply set_minus_elem in Hin as [Hin _].
  enough (Forall is_listing (trace (get_downloaded_filename g w start_time timeout))
          /\ finished_at (get_downloaded_filename g w start_time timeout) - start_time
             < timeout
          /\ path_exists
               (w (finished_at (get_downloaded_filename g w start_time timeout))) f
             = true) as (? & ? & ?) by eauto 10.
  revert Ho. rewrite (get_downloaded_filename_unfold _ _ _ _ _ Hl).
  apply (wait_loop_rule g w start_time timeout (list_to_set names0)
           (λ _ l, Forall is_listing (effects l))
           (λ r, outcome r = Return (Some f) ->
                 Forall is_listing (trace r)
                 /\ finished_at r - start_time < timeout
                 /\ path_exists (w (finished_at r)) f = true)).
  - intros _ l Hf Hlt.
    destruct (loop_body g w (list_to_set names0) l) as [l'|o l'] eqn:Hb.
    + rewrite (loop_body_continue_effects _ _ _ _ _ Hb).
      constructor; [by do 2 eexists|done].
    + simpl. intros ->.
      pose proof (loop_body_returns_existing _ _ _ _ _ _ Hb) as Hex.
      destruct (loop_body_exit_effects _ _ _ _ _ _ Hb)
        as [Hc [(_ & _ & ->)|(_ & _ & ->)]]; rewrite Hc;
        (split; [constructor; [by do 2 eexists|done]|done]).
  - intros _ l _ _. unfold timed_out. destruct (listing (w (clock l))); done.
  - done.
  - simpl. constructor; [by do 2 eexists|done].
Qed.

Lemma completion_reads_only_witness :
  Forall is_listing (trace (get_downloaded_filename source_globals w_renamed 0 10000))
  /\ finished_at (get_downloaded_filename source_globals w_renamed 0 10000) - 0
     < 10000
  /\ path_exists
       (w_renamed (finished_at (get_downloaded_filename source_globals w_renamed 0 10000)))
       "report.pdf" = true
  /\ exists names,
       listing
         (w_renamed (finished_at (get_downloaded_filename source_globals w_renamed 0 10000)))
       = Some names
       /\ "report.pdf"%string ∈ names.
Proof.
  apply (completion_reads_only source_globals w_renamed 0 10000).
  vm_compute. reflexivity.
Defined.

(** X3. The last reading of the directory a call makes (the poll that
    ends it, or the listing of the cleanup) takes place no earlier than the
    call starts and less than one sleep after the timeout has elapsed: the
    longer of the check interval and 100 ms, plus [slack] when no
    iteration begun before the timeout outlasts its sleep by more than
    that. *)
Theorem call_duration_bounded g w start_time timeout (slack : N) :
  (forall t, start_time <= t -> t - start_time < timeout ->
             (delay (w t) <= slack)%N) ->
  start_time <= finished_at (get_downloaded_filename g w start_time timeout)
  /\ finished_at (get_downloaded_filename g w start_time timeout) - start_time
     < Z.max 0 timeout + Z.max (DOWNLOAD_CHECK_INTERVAL g) 100 + Z.of_N slack.
Proof.
  intros Hslack. pose proof (N2Z.is_nonneg slack) as HS.
  destruct (listing (w start_time)) as [names0|] eqn:Hl.
  2: { unfold get_downloaded_filename. rewrite Hl. simpl. lia. }
  rewrite (get_downloaded_filename_unfold _ _ _ _ _ Hl).
  apply (wait_loop_rule g w start_time timeout (list_to_set names0)
           (λ _ l, start_time <= clock l
                   /\ clock l - start_time
                      < Z.max 0 timeout + Z.max (DOWNLOAD_CHECK_INTERVAL g) 100
                        + Z.of_N slack)
           (λ r, start_time <= finished_at r
                 /\ finished_at r - start_time
                    < Z.max 0 timeout + Z.max (DOWNLOAD_CHECK_INTERVAL g) 100
                      + Z.of_N slack)).
  - intros _ l [Hs Hb] Hlt.
    pose proof (Hslack (clock l) Hs Hlt) as Hlate. apply N2Z.inj_le in Hlate.
    pose proof (N2Z.is_nonneg (delay (w (clock l)))) as Hlate0.
    destruct (loop_body g w (list_to_set names0) l) as [l'|o l'] eqn:Hbody.
    + destruct (loop_body_step _ _ _ _ _ Hbody) as [[[? ->]| ->] _]; lia.
    + destruct (loop_body_exit_effects _ _ _ _ _ _ Hbody) as [Hc _].
      simpl. rewrite Hc. done.
  - intros _ l H _. unfold timed_out. destruct (listing (w (clock l))); done.
  - done.
  - simpl. lia.
Qed.

Lemma call_duration_bounded_witness :
  0 <= finished_at (get_downloaded_filename source_globals (lagging 1 w_idle) 0 9500)
  /\ finished_at (get_downloaded_filename source_globals (lagging 1 w_idle) 0 9500) - 0
     < Z.max 0 9500 + Z.max (DOWNLOAD_CHECK_INTERVAL source_globals) 100 + Z.of_N 1.
Proof.
  apply (call_duration_bounded source_globals (lagging 1 w_idle) 0 9500 1%N).
  intros t _ _. simpl. lia.
Defined.

(** The call of the witness ends 10.01 s after its start. *)
Example lagging_idle_session :
  finished_at (get_downloaded_filename source_globals (lagging 1 w_idle) 0 9500)
  = 10010.
Proof. vm_compute. reflexivity. Qed.

(** X4. A file is never reported sooner than one check interval plus the
    longer of the check interval and the stability time after the call
    began (4 s with the source's constants): one poll records the size, a
    later one starts the timer, a still later one returns. *)
Theorem completion_min_latency g w start_time timeout f :
  outcome (get_downloaded_filename g w start_time timeout) = Return (Some f) ->
  DOWNLOAD_CHECK_INTERVAL g
  + Z.max (DOWNLOAD_CHECK_INTERVAL g) (DOWNLOAD_STABILITY_TIME g)
  <= finished_at (get_downloaded_filename g w start_time timeout) - start_time.
Proof.
  destruct (listing (w start_time)) as [names0|] eqn:Hl.
  2: { unfold get_downloaded_filename. rewrite Hl. done. }
  rewrite (get_downloaded_filename_unfold _ _ _ _ _ Hl).
  apply (wait_loop_rule g w start_time timeout (list_to_set names0)
           (λ _ l, start_time <= clock l
                   /\ (0 < last_size l ->
                       0 <= DOWNLOAD_CHECK_INTERVAL g
                       /\ start_time + DOWNLOAD_CHECK_INTERVAL g <= clock l)
                   /\ (forall since, stable_time_start l = Some since ->
                         0 < last_size l
                         /\ start_time + DOWNLOAD_CHECK_INTERVAL g <= since
                         /\ since + DOWNLOAD_CHECK_INTERVAL g <= clock l))
           (λ r, outcome r = Return (Some f) ->
                 DOWNLOAD_CHECK_INTERVAL g
                 + Z.max (DOWNLOAD_CHECK_INTERVAL g) (DOWNLOAD_STABILITY_TIME g)
                 <= finished_at r - start_time)).
  - intros _ l (Hs & Hsize & Htimer) _.
    destruct (loop_body g w (list_to_set names0) l) as [l'|o l'] eqn:Hb.
    + body_paths;
        repeat match goal with
        | H : (_ <? _) = false |- _ => apply Z.ltb_ge in H
        | H : (_ && _) = true |- _ => apply andb_prop in H as [? ?]
        | H : (_ =? _) = true |- _ => apply Z.eqb_eq in H
        | H : (0 <? _) = true |- _ => apply Z.ltb_lt in H
        end;
        (split; [lia|]);
        (split;
         [ intros Hpos; try (destruct (Hsize Hpos)); lia
         | intros since' Heq; simplify_eq/=;
           try (destruct (Htimer _ Heq) as (? & ? & ?));
           try (destruct (Htimer _ eq_refl) as (? & ? & ?));
           try (destruct Hsize; [lia|]); lia ]).
    + simpl. intros ->.
      body_paths;
        repeat match goal with
        | H : (_ && _) = true |- _ => apply andb_prop in H as [? ?]
        | H : (_ =? _) = true |- _ => apply Z.eqb_eq in H
        | H : (0 <? _) = true |- _ => apply Z.ltb_lt in H
        | H : (_ <=? _) = true |- _ => apply Z.leb_le in H
        end;
        destruct (Htimer _ eq_refl) as (? & ? & ?); lia.
  - intros _ l _ _. unfold timed_out. destruct (listing (w (clock l))); done.
  - done.
  - simpl. split; [lia|]. split; [lia|done].
Qed.

Lemma completion_min_latency_witness :
  DOWNLOAD_CHECK_INTERVAL source_globals
  + Z.max (DOWNLOAD_CHECK_INTERVAL source_globals)
          (DOWNLOAD_STABILITY_TIME source_globals)
  <= finished_at (get_downloaded_filename source_globals (w_arrives 1000) 0 10000)
     - 0.
Proof.
  apply (completion_min_latency source_globals (w_arrives 1000) 0 10000 "report.pdf").
  vm_compute. reflexivity.
Defined.

(** X5. With a positive check interval every call ends by a return or an
    exception, after at most [timeout / min(interval, 100 ms) + 1] polls
    that went on to sleep (no poll at all when the timeout is negative). *)
Theorem polls_are_bounded g w start_time timeout :
  0 < DOWNLOAD_CHECK_INTERVAL g ->
  outcome (get_downloaded_filename g w start_time timeout) <> Spin
  /\ (length (history (get_downloaded_filename g w start_time timeout))
      <= Z.to_nat (timeout / pace g) + 1)%nat.
Proof.
  intros Hi. destruct (listing (w start_time)) as [names0|] eqn:Hl.
  2: { unfold get_downloaded_filename. rewrite Hl. simpl. split; [done|lia]. }
  rewrite (get_downloaded_filename_unfold _ _ _ _ _ Hl).
  apply (wait_loop_rule g w start_time timeout (list_to_set names0)
           (λ n l, enough g start_time timeout n l
                   /\ (length (polls l) + n = iterations g timeout)%nat)
           (λ r, outcome r <> Spin
                 /\ (length (history r) <= Z.to_nat (timeout / pace g) + 1)%nat)).
  - intros n l [He Hn] Hlt.
    destruct (loop_body g w (list_to_set names0) l) as [l'|o l'] eqn:Hb.
    + split; [eapply enough_step; eauto; lia|].
      destruct (loop_body_step _ _ _ _ _ Hb) as [_ [b ->]].
      rewrite <- Hn. cbn [length]. lia.
    + simpl. rewrite (loop_body_exit_polls _ _ _ _ _ _ (Z.lt_le_incl _ _ Hi) Hb).
      destruct (loop_body_exit_effects _ _ _ _ _ _ Hb)
        as [_ [(-> & _)|(Ho & _)]]; (split; [done|]);
        unfold iterations in Hn; lia.
  - intros n l [He Hn] _. unfold timed_out, iterations in *.
    destruct (listing (w (clock l))); simpl; (split; [done|lia]).
  - intros l [[He _] _]. lia.
  - split; [by apply enough_iterations|]. simpl. lia.
Qed.

Lemma polls_are_bounded_witness :
  outcome (get_downloaded_filename source_globals w_idle 0 3000) <> Spin
  /\ (length (history (get_downloaded_filename source_globals w_idle 0%Z 3000%Z))
      <= Z.to_nat (3000 / pace source_globals)%Z + 1)%nat.
Proof.
  apply (polls_are_bounded source_globals w_idle 0 3000). reflexivity.
Defined.

(** X6. When no new entry carries the in-progress suffix, the scan of
    lines 85-93 reports no download in progress and picks, as the file to
    watch, the last new entry in iteration order that does not end in
    ".tmp" (none if all do). *)
Theorem scan_picks_last_final new_files :
  (forall m, m ∈ new_files -> endswith m ".crdownload" = false) ->
  scan new_files None
  = (false, last (filter (λ f, endswith f ".tmp" = false) new_files), None).
Proof.
  intros Hno.
  enough (forall p,
             scan new_files p
             = (false,
                match last (filter (λ f, endswith f ".tmp" = false) new_files) with
                | Some x => Some x
                | None => p
                end, None)) as H.
  { rewrite H. by destruct (last _). }
  induction new_files as [|x xs IH]; intros p; simpl; [done|].
  rewrite (Hno x) by left.
  assert (Hxs : forall m, m ∈ xs -> endswith m ".crdownload" = false)
    by (intros m Hm; apply Hno; by right).
  rewrite filter_cons.
  destruct (decide (endswith x ".tmp" = false)) as [Ht|Ht].
  - rewrite Ht. simpl. rewrite (IH Hxs).
    rewrite last_cons.
    by destruct (last (filter (λ f : string, endswith f ".tmp" = false) xs)).
  - apply not_false_is_true in Ht. rewrite Ht. simpl. apply (IH Hxs).
Qed.

Lemma scan_picks_last_final_witness :
  scan ["a.pdf"; "x.tmp"; "b.pdf"; "y.tmp"]%string None
  = (false,
     last (filter (λ f, endswith f ".tmp" = false)
                  ["a.pdf"; "x.tmp"; "b.pdf"; "y.tmp"]%string),
     None).
Proof.
  apply (scan_picks_last_final ["a.pdf"; "x.tmp"; "b.pdf"; "y.tmp"]%string).
  intros m Hm.
  repeat (apply elem_of_cons in Hm as [->|Hm]; [vm_compute; reflexivity|]).
  inversion Hm.
Defined.

(** The candidate picked in the list of the witness. *)
Example scan_two_final_files :
  scan ["a.pdf"; "x.tmp"; "b.pdf"; "y.tmp"]%string None
  = (false, Some "b.pdf"%string, None).
Proof. vm_compute. reflexivity. Qed.

Lemma wait_loop_longer_timeout g w start_time initial_files timeout1 timeout2 f :
  timeout1 <= timeout2 ->
  forall n1 n2 l,
    (n1 <= n2)%nat ->
    outcome (wait_loop g w start_time timeout1 initial_files n1 l) = Return (Some f) ->
    wait_loop g w start_time timeout2 initial_files n2 l
    = wait_loop g w start_time timeout1 initial_files n1 l.
Proof.
  intros Ht. induction n1 as [|n1 IH]; intros n2 l Hn; simpl; [done|].
  destruct n2 as [|n2]; [lia|]. simpl.
  destruct (Z.ltb_spec (clock l - start_time) timeout1) as [Hlt|Hge].
  - destruct (Z.ltb_spec (clock l - start_time) timeout2); [|lia].
    destruct (loop_body g w initial_files l); [|done].
    apply IH. lia.
  - unfold timed_out. destruct (listing (w (clock l))); done.
Qed.

(** X7. A longer timeout never changes a success: if a call returns a
    file, the call with any larger timeout, on the same directory history,
    returns the same file at the same time after the same polls. *)
Theorem longer_timeout_keeps_success g w start_time timeout1 timeout2 f :
  timeout1 <= timeout2 ->
  outcome (get_downloaded_filename g w start_time timeout1) = Return (Some f) ->
  get_downloaded_filename g w start_time timeout2
  = get_downloaded_filename g w start_time timeout1.
Proof.
  intros Ht. unfold get_downloaded_filename.
  destruct (listing (w start_time)) as [names0|]; [|done].
  apply wait_loop_longer_timeout; [done|].
  unfold iterations. pose proof (pace_pos g).
  pose proof (Z.div_le_mono timeout1 timeout2 (pace g)). lia.
Qed.

Lemma longer_timeout_keeps_success_witness :
  get_downloaded_filename source_globals (w_arrives 1000) 0 MAX_WAIT_TIME
  = get_downloaded_filename source_globals (w_arrives 1000) 0 6000.
Proof.
  apply (longer_timeout_keeps_success source_globals (w_arrives 1000) 0 6000
           MAX_WAIT_TIME "report.pdf").
  - vm_compute. discriminate.
  - vm_compute. reflexivity.
Defined.

(** ** The final sibling of a marker *)

Lemma string_length_app s1 s2 :
  String.length (s1 +:+ s2) = (String.length s1 + String.length s2)%nat.
Proof. induction s1 as [|a s1 IH]; simpl; [done|]. by rewrite IH. Qed.

Lemma substring_all s : substring 0 (String.length s) s = s.
Proof. induction s as [|a s IH]; simpl; [done|]. by rewrite IH. Qed.

Lemma substring_app_l s1 s2 : substring 0 (String.length s1) (s1 +:+ s2) = s1.
Proof.
  induction s1 as [|a s1 IH]; simpl; [by destruct s2|]. by rewrite IH.
Qed.

Lemma substring_app_r s1 s2 n :
  substring (String.length s1) n (s1 +:+ s2) = substring 0 n s2.
Proof. induction s1 as [|a s1 IH]; simpl; done. Qed.

Lemma rfind_from_app c s1 s2 i found :
  rfind_from c (s1 +:+ s2) i found
  = rfind_from c s2 (i + Z.of_nat (String.length s1)) (rfind_from c s1 i found).
Proof.
  revert i found. induction s1 as [|a s1 IH]; intros i found; simpl.
  - by rewrite Z.add_0_r.
  - rewrite IH. f_equal. lia.
Qed.

(** X8. For a directory entry [base ++ ".crdownload"] whose [base] holds
    no slash and is not made of dots only, the suffix test of lines 86 and
    143 succeeds and [os.path.splitext] gives back [base]: the "final"
    path of line 145 is the entry's name without the suffix. *)
Theorem marker_final_sibling base :
  rfind base "/" = -1 ->
  all_dots base = false ->
  endswith (base +:+ ".crdownload") ".crdownload" = true
  /\ splitext (base +:+ ".crdownload") = (base, ".crdownload"%string).
Proof.
  intros Hsep Hdots. split.
  - unfold endswith. rewrite string_length_app. simpl String.length.
    replace (String.length base + 11 - 11)%nat with (String.length base) by lia.
    rewrite substring_app_r.
    destruct (Nat.leb_spec 11 (String.length base + 11)); [|lia]. reflexivity.
  - unfold splitext, rfind in *. rewrite !rfind_from_app, Hsep. simpl rfind_from.
    rewrite Z.add_0_l.
    destruct (Z.ltb_spec (-1) (Z.of_nat (String.length base))); [|lia].
    replace (Z.to_nat (-1 + 1)) with 0%nat by lia.
    replace (Z.to_nat (Z.of_nat (String.length base) - -1 - 1))
      with (String.length base) by lia.
    rewrite Nat2Z.id, substring_app_l, Hdots. simpl.
    rewrite string_length_app, substring_app_r. simpl String.length.
    replace (String.length base + 11 - String.length base)%nat with 11%nat by lia.
    reflexivity.
Qed.

Lemma marker_final_sibling_witness :
  endswith ("report.v2.pdf" +:+ ".crdownload") ".crdownload" = true
  /\ splitext ("report.v2.pdf" +:+ ".crdownload")
     = ("report.v2.pdf"%string, ".crdownload"%string).
Proof.
  apply (marker_final_sibling "report.v2.pdf"); vm_compute; reflexivity.
Defined.

(** X9. A marker whose name is nothing but dots before the suffix (the
    entry ".crdownload" itself, for one) has no extension for
    [os.path.splitext]: the "final" path of line 145 is the marker's own
    path. *)
Theorem dotted_marker_is_its_own_sibling base :
  all_dots base = true ->
  splitext (base +:+ ".crdownload") = (base +:+ ".crdownload", EmptyString).
Proof.
  intros Hdots. unfold splitext, rfind. rewrite !rfind_from_app. simpl rfind_from.
  rewrite Z.add_0_l.
  assert (Hsep : rfind_from "/" base 0 (-1) = -1).
  { enough (forall i, rfind_from "/" base i (-1) = -1) by done.
    induction base as [|a base IH]; intros i; simpl in *; [done|].
    apply andb_prop in Hdots as [Ha Hrest]. apply Ascii.eqb_eq in Ha. subst a.
    simpl. by apply IH. }
  rewrite Hsep.
  destruct (Z.ltb_spec (-1) (Z.of_nat (String.length base))); [|lia].
  replace (Z.to_nat (-1 + 1)) with 0%nat by lia.
  replace (Z.to_nat (Z.of_nat (String.length base) - -1 - 1))
    with (String.length base) by lia.
  by rewrite substring_app_l, Hdots.
Qed.

Lemma dotted_marker_is_its_own_sibling_witness :
  splitext ("" +:+ ".crdownload") = ("" +:+ ".crdownload", EmptyString).
Proof. apply (dotted_marker_is_its_own_sibling ""). reflexivity. Defined.

(** ** [create_download_dir_if_not_exists] *)

Module DownloadDirFacts.

Import DownloadDir.

Lemma mkdir_keeps p disk : disk ⊆ (mkdir p disk).1.
Proof.
  unfold mkdir. destruct p as [|leaf parent]; [done|].
  destruct (path_present disk (leaf :: parent)) eqn:Hp; [done|].
  repeat case_match; simpl; try done.
  apply insert_subseteq. simpl in Hp.
  by destruct (disk !! (leaf :: parent)).
Qed.

#[local] Arguments mkdir : simpl never.
#[local] Arguments path_present : simpl never.

Lemma mkdir_makes p disk disk' :
  mkdir p disk = (disk', None) -> disk' !! p = Some Directory.
Proof.
  unfold mkdir. destruct p as [|leaf parent]; [done|].
  repeat case_match; intros [= <-]. apply lookup_insert_eq.
Qed.

Lemma makedirs_keeps p disk : disk ⊆ (makedirs p disk).1.
Proof.
  revert disk. induction p as [|leaf parent IH]; intros disk; simpl.
  - done.
  - destruct parent as [|p1 parent'].
    + apply mkdir_keeps.
    + destruct (path_present disk (p1 :: parent')); [apply mkdir_keeps|].
      specialize (IH disk).
      destruct (makedirs (p1 :: parent') disk) as [disk' [[]|]]; simpl in *;
        try done; (etrans; [exact IH|apply mkdir_keeps]).
Qed.

Lemma makedirs_makes p disk disk' :
  makedirs p disk = (disk', None) -> disk' !! p = Some Directory.
Proof.
  destruct p as [|leaf parent]; simpl; [done|].
  destruct parent as [|p1 parent']; [apply mkdir_makes|].
  destruct (path_present disk (p1 :: parent')); [apply mkdir_makes|].
  destruct (makedirs (p1 :: parent') disk) as [disk1 [[]|]];
    try done; apply mkdir_makes.
Qed.

(** X10. A call that raises nothing leaves the path in existence and every
    entry the disk had untouched, and a second call finds the path, makes
    nothing and reports the existing directory.  (A path that exists as a
    regular file is "found" all the same.) *)
Theorem create_download_dir_settles directory disk out disk' :
  create_download_dir_if_not_exists directory disk = (out, (disk', None)) ->
  path_present disk' directory = true
  /\ disk ⊆ disk'
  /\ create_download_dir_if_not_exists directory disk'
     = ([UsingExisting directory], (disk', None)).
Proof.
  unfold create_download_dir_if_not_exists.
  destruct (path_present disk directory) eqn:Hp; simpl.
  - intros [= <- <-]. by rewrite Hp.
  - intros [= <- Hm].
    pose proof (makedirs_keeps directory disk) as Hk. rewrite Hm in Hk.
    pose proof (makedirs_makes _ _ _ Hm) as Hd.
    assert (path_present disk' directory = true) as Hp'.
    { destruct directory; [done|]. unfold path_present. by rewrite Hd. }
    by rewrite Hp'.
Qed.

Lemma create_download_dir_settles_witness :
  path_present (<[download_dir := Directory]> home_disk) download_dir = true
  /\ home_disk ⊆ <[download_dir := Directory]> home_disk
  /\ create_download_dir_if_not_exists download_dir
       (<[download_dir := Directory]> home_disk)
     = ([UsingExisting download_dir],
        (<[download_dir := Directory]> home_disk, None)).
Proof.
  apply (create_download_dir_settles download_dir home_disk [Creating download_dir]).
  vm_compute. reflexivity.
Defined.

(** A regular file at the path passes for the directory. *)
Example regular_file_is_accepted :
  create_download_dir_if_not_exists download_dir
    (<[download_dir := RegularFile]> home_disk)
  = ([UsingExisting download_dir], (<[download_dir := RegularFile]> home_disk, None)).
Proof. vm_compute. reflexivity. Qed.

(** A parent that is a regular file makes the call raise. *)
Example file_in_the_way :
  create_download_dir_if_not_exists download_dir
    (<[["alice"; "home"]%string := RegularFile]> home_disk)
  = ([Creating download_dir],
     (<[["alice"; "home"]%string := RegularFile]> home_disk, Some NotADirectoryError)).
Proof. vm_compute. reflexivity. Qed.

End DownloadDirFacts.

(** ** The file name of download_mfa.py *)

Module DownloadMfaFacts.

Import DownloadMfa.

(** Either [c] does not occur in [s], or [s] splits at its last
    occurrence. *)
Lemma rfind_from_cases c s :
  (forall i found, rfind_from c s i found = found)
  \/ exists s1 s2,
       s = s1 +:+ String c s2
       /\ (forall i found, rfind_from c s i found = i + Z.of_nat (String.length s1))
       /\ (forall i found, rfind_from c s2 i found = found).
Proof.
  induction s as [|a s IH]; [by left|].
  destruct IH as [Hnone|(s1 & s2 & -> & Hlast & Hnone)].
  - destruct (Ascii.eqb_spec a c) as [->|Hne].
    + right. exists EmptyString, s. repeat split; try done.
      intros i found. simpl. rewrite Ascii.eqb_refl, Hnone. lia.
    + left. intros i found. simpl.
      destruct (Ascii.eqb_spec a c); [done|]. apply Hnone.
  - right. exists (String a s1), s2. repeat split; try done.
    intros i found. simpl. rewrite Hlast. lia.
Qed.

Lemma substring_0_all s n : (String.length s <= n)%nat -> substring 0 n s = s.
Proof.
  revert n. induction s as [|a s IH]; intros n Hn; simpl.
  - by destruct n.
  - destruct n as [|n]; simpl in *; [lia|]. rewrite IH; [done|lia].
Qed.

Lemma substring_app_skip s1 s2 k n :
  substring (String.length s1 + k) n (s1 +:+ s2) = substring k n s2.
Proof. induction s1 as [|a s1 IH]; simpl; done. Qed.

(** [basename] holds no slash. *)
Lemma basename_no_slash p : rfind (basename p) "/" = -1.
Proof.
  unfold basename, rfind.
  destruct (rfind_from_cases "/" p) as [Hnone|(s1 & s2 & -> & Hlast & Hnone)].
  - rewrite (Hnone 0 (-1)). simpl Z.to_nat.
    rewrite substring_0_all by done. apply Hnone.
  - rewrite (Hlast 0 (-1)).
    replace (Z.to_nat (0 + Z.of_nat (String.length s1) + 1))
      with (String.length s1 + 1)%nat by lia.
    rewrite substring_app_skip. simpl.
    rewrite substring_0_all; [apply Hnone|].
    rewrite string_length_app. simpl. lia.
Qed.

(** X11. Whatever the header and the URL are, the name chosen for the
    output file is not empty. *)
Theorem filename_is_never_empty content_disposition url_path :
  (determine_filename content_disposition url_path).1 <> EmptyString.
Proof.
  unfold determine_filename.
  destruct (header_filename content_disposition) as [[|c rest]|];
    destruct (basename url_path); done.
Qed.

(** X12. A name that does not come from the header (taken from the URL's
    path, or the default) holds no slash: the file is written into the
    current directory. *)
Theorem fallback_filename_has_no_slash content_disposition url_path :
  (determine_filename content_disposition url_path).2 <> FromHeader ->
  rfind (determine_filename content_disposition url_path).1 "/" = -1.
Proof.
  unfold determine_filename. pose proof (basename_no_slash url_path) as Hb.
  destruct (header_filename content_disposition) as [[|c rest]|];
    destruct (basename url_path); simpl; done.
Qed.

Lemma fallback_filename_has_no_slash_witness :
  rfind (determine_filename (Some "inline"%string) "/files/2024/report.pdf").1 "/" = -1.
Proof.
  apply (fallback_filename_has_no_slash (Some "inline"%string) "/files/2024/report.pdf").
  vm_compute. discriminate.
Defined.

Lemma string_app_cons a s t : String a s +:+ t = String a (s +:+ t).
Proof. reflexivity. Qed.

Lemma string_app_snoc acc a s :
  (acc +:+ String a EmptyString) +:+ s = acc +:+ String a s.
Proof.
  induction acc as [|b acc IH]; [done|]. rewrite !string_app_cons. by rewrite IH.
Qed.

Lemma string_app_empty_r s : s +:+ EmptyString = s.
Proof.
  induction s as [|a s IH]; [done|]. rewrite string_app_cons. by rewrite IH.
Qed.

Lemma has_char_app c s1 s2 :
  has_char c (s1 +:+ s2) = has_char c s1 || has_char c s2.
Proof.
  induction s1 as [|a s1 IH]; [done|].
  rewrite string_app_cons. cbn [has_char]. by rewrite IH, orb_assoc.
Qed.

(** Before the first "f" there is no occurrence of the separator. *)
Lemma split_go_before_f pre rest acc :
  has_char "f" pre = false ->
  split_go "filename=" (pre +:+ rest) 0 acc
  = split_go "filename=" rest 0 (acc +:+ pre).
Proof.
  revert acc. induction pre as [|a pre IH]; intros acc Hf.
  - by rewrite string_app_empty_r.
  - cbn [has_char] in Hf. apply orb_false_elim in Hf as [Ha Hf].
    rewrite string_app_cons. cbn [split_go String.prefix].
    destruct (ascii_dec "f" a) as [<-|_]; [done|].
    rewrite IH by done. by rewrite string_app_snoc.
Qed.

Lemma prefix_filename_has_equals s :
  String.prefix "filename=" s = true -> has_char "=" s = true.
Proof.
  intros H.
  do 9 (destruct s as [|? s]; [done|]; simpl in H;
        match type of H with
        | (if ?d then _ else _) = true => destruct d as [<-|]; [|done]
        end).
  reflexivity.
Qed.

(** Without "=" there is no occurrence of the separator at all. *)
Lemma split_go_without_equals s acc :
  has_char "=" s = false -> split_go "filename=" s 0 acc = [acc +:+ s].
Proof.
  revert acc. induction s as [|a s IH]; intros acc He.
  - simpl. by rewrite string_app_empty_r.
  - cbn [split_go].
    destruct (String.prefix "filename=" (String a s)) eqn:Hp.
    { apply prefix_filename_has_equals in Hp. congruence. }
    simpl in He. apply orb_false_elim in He as [_ He].
    rewrite IH by done. by rewrite string_app_snoc.
Qed.

Lemma lstrip_length chars s : (String.length (lstrip chars s) <= String.length s)%nat.
Proof.
  induction s as [|a s IH]; simpl; [done|].
  destruct (has_char a chars); simpl; lia.
Qed.

Lemma rstrip_snoc chars s c :
  has_char c chars = true -> rstrip chars (s +:+ String c EmptyString) = rstrip chars s.
Proof.
  intros Hc. induction s as [|a s IH].
  - change (rstrip chars (String c EmptyString) = EmptyString).
    cbn [rstrip]. by rewrite Hc.
  - rewrite string_app_cons. cbn [rstrip]. by rewrite IH.
Qed.

(** X13. A header of the usual shape, [... filename="NAME"] with nothing
    after the closing quote, where no "f" precedes the parameter, [NAME]
    holds no "=" and neither begins nor ends with a quote or a space,
    gives [NAME] as the file name, whatever the URL is. *)
Theorem quoted_header_name_is_recovered pre name url_path :
  has_char "f" pre = false ->
  has_char "=" name = false ->
  name <> EmptyString ->
  lstrip quote_chars name = name ->
  rstrip quote_chars name = name ->
  determine_filename
    (Some (pre +:+ "filename="
               +:+ String (ascii_of_nat 34) (name +:+ String (ascii_of_nat 34) EmptyString)))
    url_path
  = (name, FromHeader).
Proof.
  intros Hpre Heq Hne Hl Hr.
  destruct name as [|c rest]; [done|]. clear Hne.
  assert (Hc : has_char c quote_chars = false).
  { destruct (has_char c quote_chars) eqn:Hc; [|done]. exfalso.
    pose proof (lstrip_length quote_chars rest) as Hlen.
    cbn [lstrip] in Hl. rewrite Hc in Hl. rewrite Hl in Hlen.
    cbn [String.length] in Hlen. lia. }
  set (value := String (ascii_of_nat 34)
                  (String c rest +:+ String (ascii_of_nat 34) EmptyString)).
  assert (Hsplit : split (pre +:+ "filename=" +:+ value) "filename="
                   = [pre; value]).
  { unfold split. rewrite split_go_before_f by done.
    change (split_go "filename=" ("filename=" +:+ value) 0 (EmptyString +:+ pre))
      with (pre :: split_go "filename=" value 0 EmptyString).
    rewrite split_go_without_equals; [done|].
    unfold value. cbn [has_char]. rewrite has_char_app, Heq. reflexivity. }
  assert (Hstrip : strip quote_chars value = String c rest).
  { unfold strip, value. cbn [lstrip].
    change (has_char (ascii_of_nat 34) quote_chars) with true. cbv iota.
    change ((String c rest +:+ String (ascii_of_nat 34) "")%string)
      with (String c (rest +:+ String (ascii_of_nat 34) "")).
    cbn [lstrip]. rewrite Hc.
    change (String c (rest +:+ String (ascii_of_nat 34) ""))
      with ((String c rest +:+ String (ascii_of_nat 34) "")%string).
    rewrite rstrip_snoc by reflexivity. exact Hr. }
  unfold determine_filename, header_filename.
  destruct (pre +:+ "filename=" +:+ value) as [|a cd] eqn:Hcd.
  { exfalso. destruct pre; simpl in Hcd; discriminate. }
  rewrite Hsplit, Hstrip. reflexivity.
Qed.

Lemma quoted_header_name_is_recovered_witness :
  determine_filename
    (Some ("attachment; " +:+ "filename="
               +:+ String (ascii_of_nat 34)
                     ("my report.pdf" +:+ String (ascii_of_nat 34) EmptyString)))
    "/download"
  = ("my report.pdf"%string, FromHeader).
Proof.
  apply (quoted_header_name_is_recovered "attachment; " "my report.pdf" "/download");
    (reflexivity || discriminate).
Defined.

(** X14. A header without "=" (a bare "inline" or "attachment") names no
    file: the name is chosen as if there were no header. *)
Theorem header_without_parameter_is_ignored cd url_path :
  has_char "=" cd = false ->
  determine_filename (Some cd) url_path = determine_filename None url_path.
Proof.
  intros He. unfold determine_filename, header_filename.
  destruct cd as [|a cd]; [done|].
  unfold split. rewrite split_go_without_equals by done. reflexivity.
Qed.

Lemma header_without_parameter_is_ignored_witness :
  determine_filename (Some "attachment"%string) "/files/report.pdf"
  = determine_filename None "/files/report.pdf".
Proof.
  apply (header_without_parameter_is_ignored "attachment" "/files/report.pdf").
  reflexivity.
Defined.

End DownloadMfaFacts.
